(** * Tennis: the single-player court (src/main.ts) and the networked
      two-player court (the socket/WebRTC client script)

    Both programs are per-frame simulations over JavaScript numbers.  The
    development models a JavaScript number as an exact rational ([Q]): all
    constants of the two programs are finite decimals, and the properties
    checked below are order properties of the update rules, not rounding
    properties.  Comparisons are the boolean tests of the source.  Sounds
    and drawing are left out, since no game variable is read back from
    them; the music sequencer and the camera have their own states and
    are modelled on their own. *)

From Stdlib Require Import QArith Qabs Qminmax Qpower Lqa ZArith List Bool
  String Lia.
Import ListNotations.
Open Scope string_scope.
Open Scope Q_scope.

(** ** Numbers *)

(** [a < b] and [a <= b] of the source, as boolean tests. *)
Definition Qltb (x y : Q) : bool := negb (Qle_bool y x).
Definition Qleb (x y : Q) : bool := Qle_bool x y.

(** [Math.sign]. *)
Definition Qsign (x : Q) : Q :=
  if Qltb 0 x then 1 else if Qltb x 0 then -1 else 0.

(** The reference clamp the specification speaks of. *)
Definition clamp (lo hi x : Q) : Q :=
  if Qltb x lo then lo else if Qltb hi x then hi else x.

(** Closed interval membership. *)
Definition within (lo hi x : Q) : Prop := lo <= x /\ x <= hi.

(** ** Single-player game: class [TennisGame] of src/main.ts *)

Module Single.

(** The live key table [this.keys]: a key name that was never pressed
    reads [undefined], which is falsy. *)
Definition Keys := string -> bool.

Definition noKeys : Keys := fun _ => false.
Definition holding (k : string) : Keys := fun k' => String.eqb k k'.

(** The game variables of [TennisGame].  The paddles only ever move along
    z and the ball along x and z (its height stays 1), so the meshes are
    kept by those coordinates. *)
Record State := mkState {
  paddle1_z : Q;          (* this.paddle1.position.z, the player *)
  paddle2_z : Q;          (* this.paddle2.position.z, the AI *)
  ball_x : Q;             (* this.ball.position.x *)
  ball_z : Q;             (* this.ball.position.z *)
  ballSpeed_x : Q;        (* this.ballSpeed.x *)
  ballSpeed_z : Q;        (* this.ballSpeed.z *)
  score_player : nat;     (* this.score.player *)
  score_ai : nat;         (* this.score.ai *)
  ballInPlay : bool;
  lastAiTarget : Q;
  instruction : string    (* this.instructionElement.textContent *)
}.

(** Fixed numbers of the class and of its methods. *)
Definition paddleSpeed : Q := 0.3.
Definition paddle1_x : Q := -9.
Definition paddle2_x : Q := 9.
Definition courtMin : Q := -4.
Definition courtMax : Q := 4.
Definition aiSpeed : Q := 0.15.
Definition paddleHitbox : Q := 0.8.
Definition maxSpeed : Q := 0.35.
Definition minSpeed : Q := 0.15.
Definition maxVerticalSpeed : Q := maxSpeed * 0.6.
Definition serveSpeed : Q := 0.2.

(** [resetBall]: dock the ball in front of the player's paddle. *)
Definition resetBall (s : State) : State :=
  {| paddle1_z := paddle1_z s; paddle2_z := paddle2_z s;
     ball_x := -8; ball_z := paddle1_z s;
     ballSpeed_x := 0; ballSpeed_z := 0;
     score_player := score_player s; score_ai := score_ai s;
     ballInPlay := false;
     lastAiTarget := lastAiTarget s;
     instruction := "Press SPACE to serve" |}.

(** [launchBall]; [r] is the value of [Math.random()]. *)
Definition launchBall (r : Q) (s : State) : State :=
  if negb (ballInPlay s) then
    {| paddle1_z := paddle1_z s; paddle2_z := paddle2_z s;
       ball_x := ball_x s; ball_z := ball_z s;
       ballSpeed_x := serveSpeed; ballSpeed_z := (r - 0.5) * 0.15;
       score_player := score_player s; score_ai := score_ai s;
       ballInPlay := true;
       lastAiTarget := lastAiTarget s;
       instruction := EmptyString |}
  else s.

(** *** [updatePaddles] *)

(** The player's paddle: each direction is tested against its bound
    before the step is taken. *)
Definition movePlayer (keys : Keys) (z : Q) : Q :=
  let moveLeft := keys "a" || keys "arrowleft" in
  let moveRight := keys "d" || keys "arrowright" in
  let z1 := if moveLeft && Qltb courtMin z then z - paddleSpeed else z in
  if moveRight && Qltb z1 courtMax then z1 + paddleSpeed else z1.

(** The AI's target before smoothing. *)
Definition aiTarget (bx bz vx vz : Q) : Q :=
  if Qltb 0 vx then
    let distanceToAI := Qabs (paddle2_x - bx) in
    let timeToReach := distanceToAI / vx in
    Qmax courtMin (Qmin courtMax (bz + vz * timeToReach))
  else bz * 0.3.

(** The AI's paddle, given the smoothed target. *)
Definition moveAI (target z : Q) : Q :=
  let targetDiff := target - z in
  let moveDirection := Qsign targetDiff in
  let moveAmount := Qmin (Qabs targetDiff) aiSpeed in
  let z1 := if Qltb 0.1 (Qabs targetDiff) then z + moveDirection * moveAmount
            else z in
  Qmax courtMin (Qmin courtMax z1).

Definition updatePaddles (keys : Keys) (r : Q) (s : State) : State :=
  let p1 := movePlayer keys (paddle1_z s) in
  let bz := if negb (ballInPlay s) then p1 else ball_z s in
  let target := aiTarget (ball_x s) bz (ballSpeed_x s) (ballSpeed_z s) in
  let last := lastAiTarget s * 0.8 + target * 0.2 in
  let p2 := moveAI last (paddle2_z s) in
  let s1 :=
    {| paddle1_z := p1; paddle2_z := p2;
       ball_x := ball_x s; ball_z := bz;
       ballSpeed_x := ballSpeed_x s; ballSpeed_z := ballSpeed_z s;
       score_player := score_player s; score_ai := score_ai s;
       ballInPlay := ballInPlay s;
       lastAiTarget := last;
       instruction := instruction s |} in
  if keys " " && negb (ballInPlay s1) then launchBall r s1 else s1.

(** *** [updateBall], block by block *)

Definition setSpeed (vx vz : Q) (s : State) : State :=
  {| paddle1_z := paddle1_z s; paddle2_z := paddle2_z s;
     ball_x := ball_x s; ball_z := ball_z s;
     ballSpeed_x := vx; ballSpeed_z := vz;
     score_player := score_player s; score_ai := score_ai s;
     ballInPlay := ballInPlay s;
     lastAiTarget := lastAiTarget s;
     instruction := instruction s |}.

(** "Update ball position". *)
Definition integrate (s : State) : State :=
  {| paddle1_z := paddle1_z s; paddle2_z := paddle2_z s;
     ball_x := ball_x s + ballSpeed_x s; ball_z := ball_z s + ballSpeed_z s;
     ballSpeed_x := ballSpeed_x s; ballSpeed_z := ballSpeed_z s;
     score_player := score_player s; score_ai := score_ai s;
     ballInPlay := ballInPlay s;
     lastAiTarget := lastAiTarget s;
     instruction := instruction s |}.

(** The two collision tests. *)
Definition hitsPlayer (s : State) : bool :=
  (Qleb (ball_x s) (-8.8) && Qleb (-9.2) (ball_x s))
  && Qltb (Qabs (ball_z s - paddle1_z s)) paddleHitbox.

Definition hitsAI (s : State) : bool :=
  (Qleb 8.8 (ball_x s) && Qleb (ball_x s) 9.2)
  && Qltb (Qabs (ball_z s - paddle2_z s)) paddleHitbox.

(** "Player paddle collision". *)
Definition playerCollision (s : State) : State :=
  if hitsPlayer s then
    let hitPosition := (ball_z s - paddle1_z s) / paddleHitbox in
    setSpeed (Qabs (ballSpeed_x s) * 1.03) (hitPosition * 0.3) s
  else s.

(** "AI paddle collision". *)
Definition aiCollision (s : State) : State :=
  if hitsAI s then
    let hitPosition := (ball_z s - paddle2_z s) / paddleHitbox in
    setSpeed (- Qabs (ballSpeed_x s) * 1.03) (hitPosition * 0.3) s
  else s.

(** "Court boundaries": the damped reflection, then the random term. *)
Definition beyondWall (s : State) : bool :=
  Qltb 5 (ball_z s) || Qltb (ball_z s) (-5).

Definition wallReflect (vz : Q) : Q := - vz * 0.9.
Definition wallNoise (r : Q) : Q := (r - 0.5) * 0.05.

Definition courtBoundaries (r : Q) (s : State) : State :=
  if beyondWall s then
    setSpeed (ballSpeed_x s) (wallReflect (ballSpeed_z s) + wallNoise r) s
  else s.

(** "Normalize horizontal speed", "Normalize vertical speed" and the drag. *)
Definition normalizeX (vx : Q) : Q :=
  if Qltb maxSpeed (Qabs vx) then Qsign vx * maxSpeed
  else if Qltb (Qabs vx) minSpeed then Qsign vx * minSpeed
  else vx.

Definition normalizeZ (vz : Q) : Q :=
  let v := if Qltb maxVerticalSpeed (Qabs vz) then Qsign vz * maxVerticalSpeed
           else vz in
  v * 0.98.

Definition normalize (s : State) : State :=
  setSpeed (normalizeX (ballSpeed_x s)) (normalizeZ (ballSpeed_z s)) s.

(** "Scoring". *)
Definition scorePlayer (s : State) : State :=
  {| paddle1_z := paddle1_z s; paddle2_z := paddle2_z s;
     ball_x := ball_x s; ball_z := ball_z s;
     ballSpeed_x := ballSpeed_x s; ballSpeed_z := ballSpeed_z s;
     score_player := S (score_player s); score_ai := score_ai s;
     ballInPlay := ballInPlay s;
     lastAiTarget := lastAiTarget s;
     instruction := instruction s |}.

Definition scoreAI (s : State) : State :=
  {| paddle1_z := paddle1_z s; paddle2_z := paddle2_z s;
     ball_x := ball_x s; ball_z := ball_z s;
     ballSpeed_x := ballSpeed_x s; ballSpeed_z := ballSpeed_z s;
     score_player := score_player s; score_ai := S (score_ai s);
     ballInPlay := ballInPlay s;
     lastAiTarget := lastAiTarget s;
     instruction := instruction s |}.

Definition scoring (s : State) : State :=
  if Qltb 10 (ball_x s) then resetBall (scorePlayer s)
  else if Qltb (ball_x s) (-10) then resetBall (scoreAI s)
  else s.

Definition updateBall (r : Q) (s : State) : State :=
  if negb (ballInPlay s) then s
  else scoring (normalize (courtBoundaries r (aiCollision
         (playerCollision (integrate s))))).

(** One frame of [animate]: [rl] is the random number a serve would draw,
    [rw] the one a wall bounce would draw. *)
Definition animate (keys : Keys) (rl rw : Q) (s : State) : State :=
  updateBall rw (updatePaddles keys rl s).

(** The state the constructor leaves: both paddles centred, the ball
    docked by [resetBall]. *)
Definition initial : State :=
  resetBall
    {| paddle1_z := 0; paddle2_z := 0;
       ball_x := 0; ball_z := 0;
       ballSpeed_x := 0; ballSpeed_z := 0;
       score_player := 0; score_ai := 0;
       ballInPlay := false;
       lastAiTarget := 0;
       instruction := EmptyString |}.

(** [n] frames with the same keys held and the same random draws. *)
Fixpoint frames (n : nat) (keys : Keys) (rl rw : Q) (s : State) : State :=
  match n with
  | O => s
  | S k => frames k keys rl rw (animate keys rl rw s)
  end.

(** A session of frames, each with its own key table and random draws. *)
Record Input := mkInput { keys : Keys; serveDraw : Q; wallDraw : Q }.

Fixpoint play (inputs : list Input) (s : State) : State :=
  match inputs with
  | [] => s
  | i :: rest => play rest (animate (keys i) (serveDraw i) (wallDraw i) s)
  end.

(** Velocity of the ball at a frame boundary: inside the speed window while
    the ball is in play, zero while it waits for the serve. *)
Definition speedsInRange (s : State) : Prop :=
  if ballInPlay s then
    within minSpeed maxSpeed (Qabs (ballSpeed_x s))
    /\ within 0 maxVerticalSpeed (Qabs (ballSpeed_z s))
  else ballSpeed_x s == 0 /\ ballSpeed_z s == 0.

(** What [updateBall] needs of the state [updatePaddles] hands over. *)
Definition readyToMove (s : State) : Prop :=
  if ballInPlay s then ~ ballSpeed_x s == 0
  else ballSpeed_x s == 0 /\ ballSpeed_z s == 0.

(** The ball at the end of the collision blocks of [updateBall]. *)
Definition afterPaddles (s : State) : State :=
  aiCollision (playerCollision (integrate s)).

(** The waiting ball: docked at the player's paddle, at rest. *)
Definition docked (s : State) : Prop :=
  ballInPlay s = false ->
  ball_x s = -8 /\ ball_z s = paddle1_z s
  /\ ballSpeed_x s = 0 /\ ballSpeed_z s = 0.

End Single.

(** ** The music of the single-player game *)

Module Music.

(** [tetrisTheme]: note names with their durations in seconds. *)
Definition tetrisTheme : list (string * Q) :=
  [ ("E5", 0.4); ("B4", 0.2); ("C5", 0.2);
    ("D5", 0.4); ("C5", 0.2); ("B4", 0.2);
    ("A4", 0.4); ("A4", 0.2); ("C5", 0.2);
    ("E5", 0.4); ("D5", 0.2); ("C5", 0.2);
    ("B4", 0.6); ("C5", 0.2);
    ("D5", 0.4); ("E5", 0.4);
    ("C5", 0.4); ("A4", 0.4);
    ("A4", 0.8) ].

(** [noteFrequencies]: the object used as a table from note name to
    frequency; a missing name reads [undefined]. *)
Definition noteFrequencies : list (string * Q) :=
  [ ("A4", 440.0); ("B4", 493.88); ("C5", 523.25);
    ("D5", 587.33); ("E5", 659.25) ].

Fixpoint lookup (table : list (string * Q)) (k : string) : option Q :=
  match table with
  | [] => None
  | (k', v) :: rest => if String.eqb k k' then Some v else lookup rest k
  end.

(** The music variables of [TennisGame]; [m_last] is the entry
    [keys['m_last']] that [updatePaddles] writes. *)
Record State := mkState {
  isMusicPlaying : bool;
  currentNoteIndex : nat;
  nextNoteTime : Q;
  gain : Q;               (* what was last set on musicGain.gain *)
  m_last : bool
}.

(** A call of [playNote(frequency, duration, time)]. *)
Record Played := mkPlayed {
  frequency : option Q; duration : Q; startTime : Q
}.

(** [initializeAudio], run by the constructor at time [now]. *)
Definition initializeAudio (now : Q) : State :=
  mkState true 0 now 0.2 false.

(** [toggleMusic] at time [now]. *)
Definition toggleMusic (now : Q) (m : State) : State :=
  if isMusicPlaying m then
    mkState false (currentNoteIndex m) (nextNoteTime m) 0 (m_last m)
  else
    mkState true 0 now 0.2 (m_last m).

(** The music part of [updatePaddles]: toggle on the frame the key goes
    down, then remember the key. *)
Definition musicKey (m_down : bool) (now : Q) (m : State) : State :=
  let m1 := if m_down && negb (m_last m) then toggleMusic now m else m in
  mkState (isMusicPlaying m1) (currentNoteIndex m1) (nextNoteTime m1)
          (gain m1) m_down.

(** [scheduleNote] at time [now]: the note played, if one is due. *)
Definition scheduleNote (now : Q) (m : State) : State * option Played :=
  if isMusicPlaying m && Qleb (nextNoteTime m) now then
    match nth_error tetrisTheme (currentNoteIndex m) with
    | Some (note, d) =>
        (mkState (isMusicPlaying m)
                 (Nat.modulo (S (currentNoteIndex m)) (List.length tetrisTheme))
                 (nextNoteTime m + d) (gain m) (m_last m),
         Some (mkPlayed (lookup noteFrequencies note) d (nextNoteTime m)))
    | None => (m, None)   (* tetrisTheme[i] undefined: reading .note throws *)
    end
  else (m, None).

(** The music of one frame of [animate]. *)
Definition frame (m_down : bool) (now : Q) (m : State)
  : State * option Played :=
  scheduleNote now (musicKey m_down now m).

(** Frames given by the state of the m key and the clock. *)
Fixpoint frames (inputs : list (bool * Q)) (m : State)
  : State * list Played :=
  match inputs with
  | [] => (m, [])
  | (m_down, now) :: rest =>
      let (m1, p) := frame m_down now m in
      let (m2, ps) := frames rest m1 in
      (m2, match p with Some x => x :: ps | None => ps end)
  end.

(** [n] calls of [scheduleNote] with the clock held at [now]. *)
Fixpoint schedule (n : nat) (now : Q) (m : State) : State :=
  match n with
  | O => m
  | S k => schedule k now (fst (scheduleNote now m))
  end.

Definition themeLength : Q :=
  fold_right (fun nd acc => snd nd + acc) 0 tetrisTheme.

(** The note index points into the theme. *)
Definition inTheme (m : State) : Prop :=
  (currentNoteIndex m < List.length tetrisTheme)%nat.

(** A note handed to [playNote] with a frequency and a positive length. *)
Definition wellFormed (p : Played) : Prop :=
  frequency p <> None /\ 0 < duration p.

End Music.

(** ** Networked game: the browser client of the two-player court *)

Module Net.

Inductive Side := Left | Right.

Inductive Screen :=
  MenuScreen | RoomScreen | WaitingScreen | GameScreen | GameOverScreen.

Record Paddle := mkPaddle { p_x : Q; p_y : Q; p_dy : Q; p_speed : Q }.

Record Ball := mkBall { b_x : Q; b_y : Q; b_dx : Q; b_dy : Q; b_speed : Q }.

(** The discriminated payload of the data channel ([message.type]).  The
    scores of a ball update are optional because [updateScore] tests them
    against [undefined]. *)
Inductive RtcMsg :=
| paddleMove (paddle : Side) (position : Q)
| ballUpdate (b : Ball) (left right : option nat)
| requestBallUpdate
| gameOver
| unknownType.

(** What the client emits on the socket. *)
Inductive SockMsg :=
| createGameE
| joinGameE (code : string)
| playerReadyE (room : option string)
| webrtcSignalE (room : option string)
| paddleMoveE (room : option string) (position : Q)
| ballMoveE (room : option string) (b : Ball) (left right : nat)
| requestBallUpdateE (room : option string)
| gameOverE (room : option string)
| restartGameE (room : option string).

(** Calls that leave the script. *)
Inductive Out :=
| Direct (m : RtcMsg)          (* peer.send, the WebRTC data channel *)
| Relay (m : SockMsg)          (* socket.emit, through the server *)
| NewPeer (initiator : bool)   (* new SimplePeer(...) *)
| DestroyPeer.                 (* peer.destroy() *)

(** The module-level variables. [peer] records whether the variable holds
    a peer object or [null]. *)
Record State := mkState {
  gameActive : bool;
  isHost : bool;
  currentRoomCode : option string;
  playerReady : bool;
  opponentReady : bool;
  leftScore : nat;
  rightScore : nat;
  peer : bool;
  peerConnected : bool;
  useWebRTC : bool;
  leftPaddle : Paddle;
  rightPaddle : Paddle;
  ball : Ball;
  screen : Screen;
  winnerDisplay : string
}.

Definition winningScore : nat := 10.
Definition paddleHeight : Q := 100.
Definition paddleWidth : Q := 15.
Definition ballSize : Q := 15.
Definition speedGate : Q := 15.
Definition speedUp : Q := 1.05.

(** Assignments to single variables. *)
Definition set_gameActive (v : bool) (s : State) : State :=
  mkState v (isHost s) (currentRoomCode s) (playerReady s) (opponentReady s)
    (leftScore s) (rightScore s) (peer s) (peerConnected s) (useWebRTC s)
    (leftPaddle s) (rightPaddle s) (ball s) (screen s) (winnerDisplay s).
Definition set_isHost (v : bool) (s : State) : State :=
  mkState (gameActive s) v (currentRoomCode s) (playerReady s) (opponentReady s)
    (leftScore s) (rightScore s) (peer s) (peerConnected s) (useWebRTC s)
    (leftPaddle s) (rightPaddle s) (ball s) (screen s) (winnerDisplay s).
Definition set_currentRoomCode (v : option string) (s : State) : State :=
  mkState (gameActive s) (isHost s) v (playerReady s) (opponentReady s)
    (leftScore s) (rightScore s) (peer s) (peerConnected s) (useWebRTC s)
    (leftPaddle s) (rightPaddle s) (ball s) (screen s) (winnerDisplay s).
Definition set_ready (mine theirs : bool) (s : State) : State :=
  mkState (gameActive s) (isHost s) (currentRoomCode s) mine theirs
    (leftScore s) (rightScore s) (peer s) (peerConnected s) (useWebRTC s)
    (leftPaddle s) (rightPaddle s) (ball s) (screen s) (winnerDisplay s).
Definition set_scores (l r : nat) (s : State) : State :=
  mkState (gameActive s) (isHost s) (currentRoomCode s) (playerReady s)
    (opponentReady s) l r (peer s) (peerConnected s) (useWebRTC s)
    (leftPaddle s) (rightPaddle s) (ball s) (screen s) (winnerDisplay s).
Definition set_peer (v : bool) (s : State) : State :=
  mkState (gameActive s) (isHost s) (currentRoomCode s) (playerReady s)
    (opponentReady s) (leftScore s) (rightScore s) v (peerConnected s)
    (useWebRTC s) (leftPaddle s) (rightPaddle s) (ball s) (screen s)
    (winnerDisplay s).
Definition set_peerConnected (v : bool) (s : State) : State :=
  mkState (gameActive s) (isHost s) (currentRoomCode s) (playerReady s)
    (opponentReady s) (leftScore s) (rightScore s) (peer s) v
    (useWebRTC s) (leftPaddle s) (rightPaddle s) (ball s) (screen s)
    (winnerDisplay s).
Definition set_useWebRTC (v : bool) (s : State) : State :=
  mkState (gameActive s) (isHost s) (currentRoomCode s) (playerReady s)
    (opponentReady s) (leftScore s) (rightScore s) (peer s) (peerConnected s)
    v (leftPaddle s) (rightPaddle s) (ball s) (screen s) (winnerDisplay s).
Definition set_leftPaddle (v : Paddle) (s : State) : State :=
  mkState (gameActive s) (isHost s) (currentRoomCode s) (playerReady s)
    (opponentReady s) (leftScore s) (rightScore s) (peer s) (peerConnected s)
    (useWebRTC s) v (rightPaddle s) (ball s) (screen s) (winnerDisplay s).
Definition set_rightPaddle (v : Paddle) (s : State) : State :=
  mkState (gameActive s) (isHost s) (currentRoomCode s) (playerReady s)
    (opponentReady s) (leftScore s) (rightScore s) (peer s) (peerConnected s)
    (useWebRTC s) (leftPaddle s) v (ball s) (screen s) (winnerDisplay s).
Definition set_ball (v : Ball) (s : State) : State :=
  mkState (gameActive s) (isHost s) (currentRoomCode s) (playerReady s)
    (opponentReady s) (leftScore s) (rightScore s) (peer s) (peerConnected s)
    (useWebRTC s) (leftPaddle s) (rightPaddle s) v (screen s) (winnerDisplay s).
Definition set_screen (v : Screen) (s : State) : State :=
  mkState (gameActive s) (isHost s) (currentRoomCode s) (playerReady s)
    (opponentReady s) (leftScore s) (rightScore s) (peer s) (peerConnected s)
    (useWebRTC s) (leftPaddle s) (rightPaddle s) (ball s) v (winnerDisplay s).
Definition set_winnerDisplay (v : string) (s : State) : State :=
  mkState (gameActive s) (isHost s) (currentRoomCode s) (playerReady s)
    (opponentReady s) (leftScore s) (rightScore s) (peer s) (peerConnected s)
    (useWebRTC s) (leftPaddle s) (rightPaddle s) (ball s) (screen s) v.

Definition set_y (y : Q) (p : Paddle) : Paddle :=
  mkPaddle (p_x p) y (p_dy p) (p_speed p).
Definition set_dy (dy : Q) (p : Paddle) : Paddle :=
  mkPaddle (p_x p) (p_y p) dy (p_speed p).
Definition set_vel (dx dy : Q) (b : Ball) : Ball :=
  mkBall (b_x b) (b_y b) dx dy (b_speed b).

(** *** Handlers as state transformers that log their outgoing calls *)

Definition Act := State -> State * list Out.

Definition skip : Act := fun s => (s, []).
Definition modify (f : State -> State) : Act := fun s => (f s, []).
Definition emit (o : Out) : Act := fun s => (s, [o]).
Definition seq (a b : Act) : Act :=
  fun s => let (s1, o1) := a s in
           let (s2, o2) := b s1 in (s2, (o1 ++ o2)%list).
Definition cond (c : State -> bool) (a b : Act) : Act :=
  fun s => if c s then a s else b s.
Definition reading {A : Type} (f : State -> A) (k : A -> Act) : Act :=
  fun s => k (f s) s.

Notation "a ;; b" := (seq a b) (at level 61, right associativity).
Notation "'when' c 'then' a" := (cond c a skip) (at level 60).

(** *** Transport *)

(** [sendWebRTCMessage]: the message goes to the data channel when a peer
    exists and is connected, and is dropped otherwise. *)
Definition sendWebRTCMessage (m : RtcMsg) : Act :=
  when (fun s => peer s && peerConnected s) then emit (Direct m).

(** The test that selects the direct channel wherever the script can
    choose between the two. *)
Definition directInUse (s : State) : bool := useWebRTC s && peerConnected s.

(** [initializeWebRTC]; [throws] tells whether building the peer raised. *)
Definition initializeWebRTC (isInitiator throws : bool) : Act :=
  if throws then modify (set_useWebRTC false)
  else modify (set_peer true) ;; emit (NewPeer isInitiator).

(** Destroying the peer, as done by the player-left handler and by
    [backToMenu]. *)
Definition cleanUpPeer : Act :=
  when peer then
    (emit DestroyPeer ;; modify (set_peer false) ;;
     modify (set_peerConnected false)).

(** *** Screens and session *)

Definition resetGame : Act :=
  modify (set_scores 0 0) ;; modify (set_gameActive false).

Definition backToMenu : Act :=
  modify (set_screen MenuScreen) ;;
  modify (set_currentRoomCode None) ;;
  modify (set_isHost false) ;;
  modify (set_ready false false) ;;
  resetGame ;;
  cleanUpPeer.

(** [endGame(message)]; [None] is the call without an argument. *)
Definition winnerText (message : option string) (s : State) : string :=
  match message with
  | Some m => m
  | None => if (rightScore s <? leftScore s)%nat then "PLAYER 1 WINS!"
            else "PLAYER 2 WINS!"
  end.

Definition endGame (message : option string) : Act :=
  modify (set_gameActive false) ;;
  modify (fun s => set_winnerDisplay (winnerText message s) s) ;;
  modify (set_screen GameOverScreen) ;;
  cond directInUse
    (sendWebRTCMessage gameOver)
    (reading currentRoomCode (fun room => emit (Relay (gameOverE room)))).

(** [updateScore(left, right)]. *)
Definition updateScore (l r : option nat) (s : State) : State :=
  set_scores (match l with Some v => v | None => leftScore s end)
             (match r with Some v => v | None => rightScore s end) s.

(** [Math.random() > 0.5 ? 1 : -1]. *)
Definition coin (r : Q) : Q := if Qltb 0.5 r then 1 else -1.

Definition resetGameState (r1 r2 : Q) : Act :=
  modify (set_leftPaddle (mkPaddle 50 250 0 8)) ;;
  modify (set_rightPaddle (mkPaddle 735 250 0 8)) ;;
  modify (set_ball (mkBall 400 300 (5 * coin r1) (5 * coin r2) 5)) ;;
  modify (set_scores 0 0).

Definition startGame (r1 r2 : Q) : Act :=
  modify (set_screen GameScreen) ;;
  modify (set_gameActive true) ;;
  resetGameState r1 r2 ;;
  when (fun s => negb (isHost s)) then
    cond directInUse
      (sendWebRTCMessage requestBallUpdate)
      (reading currentRoomCode
         (fun room => emit (Relay (requestBallUpdateE room)))).

(** [handleWebRTCMessage]. *)
Definition handleWebRTCMessage (m : RtcMsg) : Act :=
  match m with
  | paddleMove Left position =>
      modify (fun s => set_leftPaddle (set_y position (leftPaddle s)) s)
  | paddleMove Right position =>
      modify (fun s => set_rightPaddle (set_y position (rightPaddle s)) s)
  | ballUpdate b l r =>
      when (fun s => negb (isHost s)) then
        (modify (set_ball b) ;; modify (updateScore l r))
  | requestBallUpdate =>
      when (fun s => isHost s && gameActive s) then
        reading (fun s => ballUpdate (ball s) (Some (leftScore s))
                            (Some (rightScore s)))
                sendWebRTCMessage
  | gameOver => modify (set_gameActive false)
  | unknownType => skip
  end.

(** *** The simulation step *)

Section Canvas.

(** The canvas element is defined by the page, not by the script: its
    size is a parameter of everything that reads it. *)
Variable canvas_width canvas_height : Q.

(** "Keep paddles within bounds". *)
Definition keepInBounds (y : Q) : Q :=
  let y1 := if Qltb y 0 then 0 else y in
  if Qltb (canvas_height - paddleHeight) y1 then canvas_height - paddleHeight
  else y1.

Definition stepPaddle (p : Paddle) : Paddle :=
  set_y (keepInBounds (p_y p + p_dy p)) p.

Definition movePaddles : Act :=
  modify (fun s => set_leftPaddle (stepPaddle (leftPaddle s)) s) ;;
  modify (fun s => set_rightPaddle (stepPaddle (rightPaddle s)) s) ;;
  cond directInUse
    (reading (fun s => if isHost s
                       then paddleMove Left (p_y (leftPaddle s))
                       else paddleMove Right (p_y (rightPaddle s)))
             sendWebRTCMessage)
    (reading (fun s => paddleMoveE (currentRoomCode s)
                         (if isHost s then p_y (leftPaddle s)
                          else p_y (rightPaddle s)))
             (fun m => emit (Relay m))).

Definition moveBall (b : Ball) : Ball :=
  mkBall (b_x b + b_dx b) (b_y b + b_dy b) (b_dx b) (b_dy b) (b_speed b).

(** "Ball collision with top and bottom walls". *)
Definition atWall (b : Ball) : bool :=
  Qleb (b_y b) 0 || Qleb canvas_height (b_y b + ballSize).

Definition wallCollision (b : Ball) : Ball :=
  if atWall b then set_vel (b_dx b) (- b_dy b) b else b.

(** The common body of the two paddle collisions. *)
Definition bounceOff (p : Paddle) (b : Ball) : Ball :=
  let dx := - b_dx b in
  let hitPosition := (b_y b - p_y p) / paddleHeight in
  let dy := 10 * (hitPosition - 0.5) in
  let dx' := if Qltb (Qabs dx) speedGate then dx * speedUp else dx in
  set_vel dx' dy b.

Definition hitsLeft (p : Paddle) (b : Ball) : bool :=
  Qleb (b_x b) (p_x p + paddleWidth)
  && Qleb (p_y p) (b_y b + ballSize)
  && Qleb (b_y b) (p_y p + paddleHeight)
  && Qltb (b_dx b) 0.

Definition hitsRight (p : Paddle) (b : Ball) : bool :=
  Qleb (p_x p) (b_x b + ballSize)
  && Qleb (p_y p) (b_y b + ballSize)
  && Qleb (b_y b) (p_y p + paddleHeight)
  && Qltb 0 (b_dx b).

Definition leftCollision (p : Paddle) (b : Ball) : Ball :=
  if hitsLeft p b then bounceOff p b else b.

Definition rightCollision (p : Paddle) (b : Ball) : Ball :=
  if hitsRight p b then bounceOff p b else b.

(** [resetBall(direction)]; [r] is the value of [Math.random()]. *)
Definition resetBall (direction r : Q) (b : Ball) : Ball :=
  mkBall (canvas_width / 2) (canvas_height / 2)
         (b_speed b * direction) (b_speed b * coin r) (b_speed b).

(** "Ball out of bounds (scoring)". *)
Definition outLeft (b : Ball) : bool := Qltb (b_x b) 0.
Definition outRight (b : Ball) : bool := Qltb canvas_width (b_x b).

Definition scoring (r : Q) (s : State) : State :=
  if outLeft (ball s) then
    set_ball (resetBall 1 r (ball s))
      (set_scores (leftScore s) (S (rightScore s)) s)
  else if outRight (ball s) then
    set_ball (resetBall (-1) r (ball s))
      (set_scores (S (leftScore s)) (rightScore s) s)
  else s.

Definition checkCollisions (r : Q) (s : State) : State :=
  let b1 := wallCollision (ball s) in
  let b2 := leftCollision (leftPaddle s) b1 in
  let b3 := rightCollision (rightPaddle s) b2 in
  scoring r (set_ball b3 s).

(** The host's part of [update]: [moveBall(); checkCollisions()]. *)
Definition simulateBall (r : Q) (s : State) : State :=
  checkCollisions r (set_ball (moveBall (ball s)) s).

Definition sendBall : Act :=
  cond directInUse
    (reading (fun s => ballUpdate (ball s) (Some (leftScore s))
                         (Some (rightScore s)))
             sendWebRTCMessage)
    (reading (fun s => ballMoveE (currentRoomCode s) (ball s)
                         (leftScore s) (rightScore s))
             (fun m => emit (Relay m))).

Definition update (r : Q) : Act :=
  movePaddles ;;
  (when isHost then (modify (simulateBall r) ;; sendBall)) ;;
  when (fun s => (winningScore <=? leftScore s)%nat
                 || (winningScore <=? rightScore s)%nat)
  then endGame None.

Definition gameLoop (r : Q) : Act := when gameActive then update r.

(** *** The handlers the script installs *)

(** One constructor per handler.  A handler that can meet an exception of
    a library call ([new SimplePeer], [peer.signal]) takes a flag telling
    whether the call raised; a handler that draws random numbers takes
    the draws. *)
Inductive Event :=
(* socket.on(...) *)
| OnGameCreated (roomCode : string)
| OnGameJoined (roomCode : string) (throws : bool)
| OnJoinError
| OnPlayerJoined (throws : bool)
| OnWebrtcSignal (throws : bool)
| OnPlayerLeft
| OnGameStart (r1 r2 : Q)
| OnInitialBallTimer
| OnOpponentPaddleMove (paddle : Side) (position : Q)
| OnBallUpdate (b : Ball) (left right : option nat)
| OnSendBallUpdate (roomCode : option string)
| OnGameEnded
| OnGameRestarted
(* peer.on(...) *)
| PeerSignal
| PeerConnect
| PeerData (m : RtcMsg)
| PeerError
| PeerClose
(* buttons and keys *)
| ClickCreateGame
| ClickJoinGame
| ClickJoinRoom (code : string)
| ClickBack
| ClickReady
| ClickPlayAgain
| KeyDown (key : string)
| KeyUp (key : string)
(* requestAnimationFrame(gameLoop) *)
| Frame (r : Q).

Definition isUpKey (k : string) : bool :=
  String.eqb k "w" || String.eqb k "W" || String.eqb k "ArrowUp".
Definition isDownKey (k : string) : bool :=
  String.eqb k "s" || String.eqb k "S" || String.eqb k "ArrowDown".

Definition pressKey (k : string) (p : Paddle) : Paddle :=
  if isUpKey k then set_dy (- p_speed p) p
  else if isDownKey k then set_dy (p_speed p) p
  else p.

Definition releaseKey (k : string) (p : Paddle) : Paddle :=
  if isUpKey k && Qltb (p_dy p) 0 then set_dy 0 p
  else if isDownKey k && Qltb 0 (p_dy p) then set_dy 0 p
  else p.

Definition onOwnPaddle (f : Paddle -> Paddle) : Act :=
  when gameActive then
    cond isHost
      (modify (fun s => set_leftPaddle (f (leftPaddle s)) s))
      (modify (fun s => set_rightPaddle (f (rightPaddle s)) s)).

(** True when neither flag of the direct channel stands in the way of the
    relayed handlers: [!useWebRTC || !peerConnected]. *)
Definition relayInUse (s : State) : bool :=
  negb (useWebRTC s) || negb (peerConnected s).

Definition playerLeftHandler : Act :=
  cond gameActive (endGame (Some "Opponent left the game")) backToMenu ;;
  cleanUpPeer.

Definition handle (e : Event) : Act :=
  match e with
  | OnGameCreated roomCode =>
      modify (set_currentRoomCode (Some roomCode)) ;;
      modify (set_screen RoomScreen) ;;
      modify (set_isHost true)
  | OnGameJoined roomCode throws =>
      modify (set_currentRoomCode (Some roomCode)) ;;
      modify (set_screen WaitingScreen) ;;
      when (fun s => useWebRTC s && negb (isHost s)) then
        initializeWebRTC true throws
  | OnJoinError => skip
  | OnPlayerJoined throws =>
      when isHost then
        (modify (set_screen WaitingScreen) ;;
         when useWebRTC then initializeWebRTC false throws)
  | OnWebrtcSignal throws =>
      when (fun s => peer s && useWebRTC s) then
        (if throws then modify (set_useWebRTC false) else skip)
  | OnPlayerLeft => playerLeftHandler
  | OnGameStart r1 r2 => startGame r1 r2
  | OnInitialBallTimer =>
      cond directInUse
        (reading (fun s => ballUpdate (ball s) (Some 0%nat) (Some 0%nat))
                 sendWebRTCMessage)
        (reading (fun s => ballMoveE (currentRoomCode s) (ball s) 0 0)
                 (fun m => emit (Relay m)))
  | OnOpponentPaddleMove Left position =>
      when relayInUse then
        modify (fun s => set_leftPaddle (set_y position (leftPaddle s)) s)
  | OnOpponentPaddleMove Right position =>
      when relayInUse then
        modify (fun s => set_rightPaddle (set_y position (rightPaddle s)) s)
  | OnBallUpdate b l r =>
      when relayInUse then
        (when (fun s => negb (isHost s)) then
           (modify (set_ball b) ;; modify (updateScore l r)))
  | OnSendBallUpdate roomCode =>
      when (fun s => relayInUse s && isHost s && gameActive s) then
        reading (fun s => ballMoveE roomCode (ball s)
                            (leftScore s) (rightScore s))
                (fun m => emit (Relay m))
  | OnGameEnded => modify (set_gameActive false)
  | OnGameRestarted =>
      resetGame ;;
      modify (set_screen WaitingScreen) ;;
      modify (set_ready false false)
  | PeerSignal =>
      reading currentRoomCode (fun room => emit (Relay (webrtcSignalE room)))
  | PeerConnect =>
      modify (set_peerConnected true) ;;
      when (fun s => negb (isHost s) && gameActive s) then
        sendWebRTCMessage requestBallUpdate
  | PeerData m => handleWebRTCMessage m
  | PeerError =>
      modify (set_useWebRTC false) ;; modify (set_peerConnected false)
  | PeerClose =>
      modify (set_peerConnected false) ;; modify (set_useWebRTC false)
  | ClickCreateGame => emit (Relay createGameE)
  | ClickJoinGame => modify (set_screen RoomScreen)
  | ClickJoinRoom code =>
      if String.eqb code EmptyString then skip
      else emit (Relay (joinGameE code))
  | ClickBack => backToMenu
  | ClickReady =>
      modify (fun s => set_ready true (opponentReady s) s) ;;
      reading currentRoomCode (fun room => emit (Relay (playerReadyE room)))
  | ClickPlayAgain =>
      reading currentRoomCode (fun room => emit (Relay (restartGameE room)))
  | KeyDown k => onOwnPaddle (pressKey k)
  | KeyUp k => onOwnPaddle (releaseKey k)
  | Frame r => gameLoop r
  end.

(** A session is a sequence of handler runs; every outgoing call is kept
    with the event whose handler made it. *)
Fixpoint run (evs : list Event) (s : State) : State * list (Event * Out) :=
  match evs with
  | [] => (s, [])
  | e :: rest =>
      let (s1, o1) := handle e s in
      let (s2, o2) := run rest s1 in
      (s2, (map (pair e) o1 ++ o2)%list)
  end.

(** The script installs its socket handlers twice: the DOMContentLoaded
    listener calls [setupSocketHandlers], and so does [init], which is
    [window.onload].  Each call registers fresh arrow functions, and the
    socket keeps every listener, so one arriving player-left message runs
    the handler body twice in a row. *)
Definition playerLeftArrives : Act := playerLeftHandler ;; playerLeftHandler.

(** The same holds for the game-start message: [startGame] runs twice, each
    run with its own draws for the ball. *)
Definition gameStartArrives (r1 r2 r3 r4 : Q) : Act :=
  startGame r1 r2 ;; startGame r3 r4.

(** Outgoing calls by kind. *)
Definition isDirect (o : Out) : bool :=
  match o with Direct _ => true | _ => false end.
Definition isNewPeer (o : Out) : bool :=
  match o with NewPeer _ => true | _ => false end.

(** The events that make the script give up the direct channel. *)
Definition fallsBack (e : Event) (s : State) : bool :=
  match e with
  | PeerError | PeerClose => true
  | OnWebrtcSignal true => peer s && useWebRTC s
  | OnGameJoined _ true => useWebRTC s && negb (isHost s)
  | OnPlayerJoined true => isHost s && useWebRTC s
  | _ => false
  end.

(** The handlers of the data channel itself. *)
Definition isPeerEvent (e : Event) : bool :=
  match e with
  | PeerConnect | PeerData _ => true
  | _ => false
  end.

End Canvas.

Definition isRelay (o : Out) : bool :=
  match o with Relay _ => true | _ => false end.

(** A paddle as the script makes them: speed 8, moving by -8, 0 or 8. *)
Definition stepSpeed (p : Paddle) : Prop :=
  p_speed p = 8 /\ (p_dy p = - 8 \/ p_dy p = 0 \/ p_dy p = 8).

Definition paddlesSound (s : State) : Prop :=
  stepSpeed (leftPaddle s) /\ stepSpeed (rightPaddle s).

(** The handlers that assign [isHost]. *)
Definition changesRole (e : Event) : bool :=
  match e with
  | OnGameCreated _ | ClickBack | OnPlayerLeft => true
  | _ => false
  end.

Definition noDirect (outs : list Out) : bool :=
  forallb (fun o => negb (isDirect o)) outs.
Definition noNewPeer (outs : list Out) : bool :=
  forallb (fun o => negb (isNewPeer o)) outs.

(** The ball once the wall and paddle tests of [checkCollisions] are done,
    before the scoring test. *)
Definition afterCollisions (canvas_height : Q) (s : State) : Ball :=
  rightCollision (rightPaddle s)
    (leftCollision (leftPaddle s)
       (wallCollision canvas_height (moveBall (ball s)))).

(** The velocities the host's simulation keeps the ball at, starting from
    the ball of [resetGameState]. *)
Definition ballInRange (b : Ball) : Prop :=
  b_speed b == 5
  /\ 5 <= Qabs (b_dx b) /\ Qabs (b_dx b) < speedGate * speedUp
  /\ Qabs (b_dy b) <= 6.5.

End Net.

(** ** The camera of the networked game *)

Module View.

Record Camera := mkCamera {
  cam_x : Q; cam_y : Q; cam_z : Q;
  rotationX : Q; rotationY : Q;
  followPlayer : bool
}.

(** The initial [camera] object, which is also what the c key restores. *)
Definition defaultCamera (follow : bool) : Camera :=
  mkCamera 0 8 (-45) 0.3 0 follow.

Section Canvas.

Variable canvas_width canvas_height : Q.

Definition targetX (s : Net.State) : Q :=
  if Net.isHost s then Net.p_x (Net.leftPaddle s) - canvas_width / 2
  else Net.p_x (Net.rightPaddle s) - canvas_width / 2.

Definition targetY (s : Net.State) : Q :=
  if Net.isHost s then Net.p_y (Net.leftPaddle s) - canvas_height / 2
  else Net.p_y (Net.rightPaddle s) - canvas_height / 2.

(** [updateCamera]. *)
Definition updateCamera (s : Net.State) (c : Camera) : Camera :=
  if followPlayer c then
    mkCamera (cam_x c + (targetX s - cam_x c) * 0.1)
             (8 + (targetY s - cam_y c) * 0.05)
             (cam_z c) (rotationX c) (rotationY c) (followPlayer c)
  else c.

(** [n] frames of [updateCamera] while the game state stands still. *)
Fixpoint follow (n : nat) (s : Net.State) (c : Camera) : Camera :=
  match n with
  | O => c
  | S k => follow k s (updateCamera s c)
  end.

End Canvas.

(** The camera part of [handleKeyDown]. *)
Definition cameraKey (key : string) (s : Net.State) (c : Camera) : Camera :=
  if negb (Net.gameActive s) then c
  else if String.eqb key "c" || String.eqb key "C" then
    if followPlayer c then defaultCamera false
    else mkCamera (cam_x c) (cam_y c) (cam_z c) (rotationX c) (rotationY c)
                  true
  else c.

End View.

(** * Scenarios used by the examples below *)

(** The player holds the left key for fourteen frames from the start. *)
Definition leftHeld : Single.State :=
  Single.frames 14 (Single.holding "a") 0.5 0.5 Single.initial.

(** The ball has passed the AI paddle and leaves the court on this frame. *)
Definition lastFrameOfRally : Single.State :=
  {| Single.paddle1_z := 0; Single.paddle2_z := 0;
     Single.ball_x := 9.9; Single.ball_z := 3;
     Single.ballSpeed_x := 0.2; Single.ballSpeed_z := 0.1;
     Single.score_player := 0; Single.score_ai := 0;
     Single.ballInPlay := true;
     Single.lastAiTarget := 0;
     Single.instruction := EmptyString |}.

(** The ball arrives at the player's paddle, which stands at the centre. *)
Definition arrivingAtPlayer : Single.State :=
  {| Single.paddle1_z := 0; Single.paddle2_z := 0;
     Single.ball_x := -8.9; Single.ball_z := 0;
     Single.ballSpeed_x := -0.2; Single.ballSpeed_z := 0;
     Single.score_player := 0; Single.score_ai := 0;
     Single.ballInPlay := true;
     Single.lastAiTarget := 0;
     Single.instruction := EmptyString |}.

(** The ball is beyond the side wall and still moving outwards. *)
Definition beyondSideWall : Single.State :=
  {| Single.paddle1_z := 0; Single.paddle2_z := 0;
     Single.ball_x := 2; Single.ball_z := 5;
     Single.ballSpeed_x := 0.2; Single.ballSpeed_z := 0.1;
     Single.score_player := 0; Single.score_ai := 0;
     Single.ballInPlay := true;
     Single.lastAiTarget := 0;
     Single.instruction := EmptyString |}.

(** The ball flies towards the AI side. *)
Definition flyingToAI : Single.State :=
  {| Single.paddle1_z := 0; Single.paddle2_z := 0;
     Single.ball_x := 1; Single.ball_z := 1;
     Single.ballSpeed_x := 0.2; Single.ballSpeed_z := 0.1;
     Single.score_player := 0; Single.score_ai := 0;
     Single.ballInPlay := true;
     Single.lastAiTarget := 0;
     Single.instruction := EmptyString |}.

(** One frame in which the player presses the space key. *)
Definition serveInput : Single.Input :=
  Single.mkInput (Single.holding " ") 0.5 0.5.

(** The ball waits in front of the player's paddle after a few points. *)
Definition waitingForServe : Single.State :=
  {| Single.paddle1_z := 1.5; Single.paddle2_z := 0;
     Single.ball_x := -8; Single.ball_z := 1.5;
     Single.ballSpeed_x := 0; Single.ballSpeed_z := 0;
     Single.score_player := 2; Single.score_ai := 1;
     Single.ballInPlay := false;
     Single.lastAiTarget := 0;
     Single.instruction := "Press SPACE to serve" |}.

(** The ball has passed the player's paddle and leaves on this frame. *)
Definition lastFrameForAI : Single.State :=
  {| Single.paddle1_z := 2; Single.paddle2_z := 0;
     Single.ball_x := -9.9; Single.ball_z := -3;
     Single.ballSpeed_x := -0.2; Single.ballSpeed_z := 0.1;
     Single.score_player := 0; Single.score_ai := 0;
     Single.ballInPlay := true;
     Single.lastAiTarget := 0;
     Single.instruction := EmptyString |}.

(** The ball arrives at the AI's paddle. *)
Definition arrivingAtAI : Single.State :=
  {| Single.paddle1_z := 0; Single.paddle2_z := 0;
     Single.ball_x := 8.9; Single.ball_z := 0;
     Single.ballSpeed_x := 0.2; Single.ballSpeed_z := 0;
     Single.score_player := 0; Single.score_ai := 0;
     Single.ballInPlay := true;
     Single.lastAiTarget := 0;
     Single.instruction := EmptyString |}.

(** A canvas of 800 by 600. *)
Definition canvasW : Q := 800.
Definition canvasH : Q := 600.

(** The host in a running game, both channels up, the ball about to cross
    the left edge away from the paddle. *)
Definition hostMidGame : Net.State :=
  Net.mkState true true (Some "AB12") true true 3 2 true true true
    (Net.mkPaddle 50 250 0 8) (Net.mkPaddle 735 250 0 8)
    (Net.mkBall 2 100 (-5) 5 5) Net.GameScreen EmptyString.

(** The same game with the ball about to cross the right edge. *)
Definition hostBallRight : Net.State :=
  Net.set_ball (Net.mkBall 798 100 5 5 5) hostMidGame.

(** The guest in a running game with the data channel connected. *)
Definition guestMidGame : Net.State :=
  Net.mkState true false (Some "AB12") true true 3 2 true true true
    (Net.mkPaddle 50 250 0 8) (Net.mkPaddle 735 250 0 8)
    (Net.mkBall 400 300 5 5 5) Net.GameScreen EmptyString.

(** The guest of the same game after its data channel closed. *)
Definition guestRelayed : Net.State :=
  Net.set_useWebRTC false (Net.set_peerConnected false guestMidGame).

(** A ball state as it arrives in a message. *)
Definition sentBall : Net.Ball := Net.mkBall 120 80 (-5.25) 2 5.

(** Balls meeting the left paddle and the right paddle. *)
Definition ballAtLeftPaddle : Net.Ball := Net.mkBall 60 300 (-5) 5 5.
Definition ballAtRightPaddle : Net.Ball := Net.mkBall 725 300 5 5 5.

(** The ball inside the band of the player's paddle, at its centre. *)
Definition inBandAtPlayer : Single.State := Single.integrate arrivingAtPlayer.

(** The music as the constructor starts it at time 0. *)
Definition themeStart : Music.State := Music.initializeAudio 0.

(** The host of a running game in which the left side has ten points. *)
Definition hostAtTen : Net.State := Net.set_scores 10 7 hostMidGame.

(** A client in the menu, with no peer. *)
Definition inMenu : Net.State :=
  Net.mkState false false None false false 0 0 false false true
    (Net.mkPaddle 50 250 0 8) (Net.mkPaddle 735 250 0 8)
    (Net.mkBall 400 300 5 5 5) Net.MenuScreen EmptyString.

(** The left paddle as [resetGameState] makes it. *)
Definition freshPaddle : Net.Paddle := Net.mkPaddle 50 250 0 8.

(** The host with a ball that has been returned twenty-two times, about to
    reach the left paddle. *)
Definition hostFastBall : Net.State :=
  Net.set_ball (Net.mkBall 70 300 (- (5 * 1.05 ^ 22)) 5 5) hostMidGame.

(** The host with the ball in mid-court, about to cross the top wall. *)
Definition hostAtWall : Net.State :=
  Net.set_ball (Net.mkBall 400 2 5 (-5) 5) hostMidGame.

(** * Properties *)

(** ** Facts about the number layer *)

Lemma Qltb_spec (x y : Q) : reflect (x < y) (Qltb x y).
Proof.
  unfold Qltb. destruct (Qle_bool y x) eqn:E; constructor.
  - apply Qle_bool_iff in E. lra.
  - assert (~ y <= x) by (rewrite <- Qle_bool_iff; congruence). lra.
Qed.

Lemma Qleb_spec (x y : Q) : reflect (x <= y) (Qleb x y).
Proof.
  unfold Qleb. destruct (Qle_bool x y) eqn:E; constructor.
  - now apply Qle_bool_iff.
  - rewrite <- Qle_bool_iff. congruence.
Qed.

Lemma Qabs_cases (x : Q) :
  (0 <= x /\ Qabs x = x) \/ (x < 0 /\ Qabs x = - x).
Proof.
  destruct x as [[|n|n] d]; cbn.
  - left. split; [ discriminate | reflexivity ].
  - left. split; [ discriminate | reflexivity ].
  - right. split; reflexivity.
Qed.

Lemma Qmax_cases (x y : Q) :
  (y <= x /\ Qmax x y = x) \/ (x < y /\ Qmax x y = y).
Proof.
  unfold Qmax, GenericMinMax.gmax.
  destruct (x ?= y) eqn:E.
  - left. split; [ apply Qeq_alt in E; lra | reflexivity ].
  - right. split; [ now apply Qlt_alt | reflexivity ].
  - left. split; [ apply Qgt_alt in E; lra | reflexivity ].
Qed.

Lemma Qmin_cases (x y : Q) :
  (x <= y /\ Qmin x y = x) \/ (y < x /\ Qmin x y = y).
Proof.
  unfold Qmin, GenericMinMax.gmin.
  destruct (x ?= y) eqn:E.
  - left. split; [ apply Qeq_alt in E; lra | reflexivity ].
  - left. split; [ apply Qlt_alt in E; lra | reflexivity ].
  - right. split; [ now apply Qgt_alt | reflexivity ].
Qed.

(** Case analysis on every test, absolute value, maximum and minimum in
    sight, leaving linear arithmetic. *)
Ltac split_tests :=
  repeat match goal with
  | |- context [Qltb ?a ?b] => destruct (Qltb_spec a b)
  | |- context [Qleb ?a ?b] => destruct (Qleb_spec a b)
  | H : context [Qltb ?a ?b] |- _ => destruct (Qltb_spec a b)
  | H : context [Qleb ?a ?b] |- _ => destruct (Qleb_spec a b)
  end.

Ltac split_abs :=
  repeat match goal with
  | |- context [Qabs ?a] =>
      let E := fresh "E" in
      destruct (Qabs_cases a) as [[? E] | [? E]]; rewrite E in *; clear E
  | H : context [Qabs ?a] |- _ =>
      let E := fresh "E" in
      destruct (Qabs_cases a) as [[? E] | [? E]]; rewrite E in *; clear E
  | |- context [Qmin ?a ?b] =>
      let E := fresh "E" in
      destruct (Qmin_cases a b) as [[? E] | [? E]]; rewrite E in *; clear E
  | H : context [Qmin ?a ?b] |- _ =>
      let E := fresh "E" in
      destruct (Qmin_cases a b) as [[? E] | [? E]]; rewrite E in *; clear E
  | |- context [Qmax ?a ?b] =>
      let E := fresh "E" in
      destruct (Qmax_cases a b) as [[? E] | [? E]]; rewrite E in *; clear E
  | H : context [Qmax ?a ?b] |- _ =>
      let E := fresh "E" in
      destruct (Qmax_cases a b) as [[? E] | [? E]]; rewrite E in *; clear E
  end.

Lemma clamp_within (lo hi x : Q) : lo <= hi -> within lo hi (clamp lo hi x).
Proof.
  intros Hle. unfold within, clamp. split_tests; lra.
Qed.

(** [Math.max(lo, Math.min(hi, x))] is the clamp. *)
Lemma max_min_is_clamp (lo hi x : Q) :
  lo <= hi -> Qmax lo (Qmin hi x) == clamp lo hi x.
Proof.
  intros Hle. unfold clamp. split_abs; split_tests; lra.
Qed.

Lemma Qsign_abs (x : Q) : Qsign x * Qabs x == x.
Proof.
  unfold Qsign. split_abs; split_tests; lra.
Qed.

(** ** The single-player game *)

Module SingleFacts.
Import Single.

Ltac unfold_consts :=
  unfold maxVerticalSpeed in *;
  unfold courtMin, courtMax, paddleSpeed, aiSpeed, paddleHitbox, maxSpeed,
    minSpeed, serveSpeed, paddle1_x, paddle2_x in *.

(** Reading a field of a rebuilt state, without touching the numbers. *)
Ltac fields :=
  cbn [paddle1_z paddle2_z ball_x ball_z ballSpeed_x ballSpeed_z
       score_player score_ai ballInPlay lastAiTarget instruction
       setSpeed integrate resetBall scorePlayer scoreAI] in *.

(** *** Paddles *)

(** The AI paddle is clamped after its move. *)
Lemma moveAI_within (target z : Q) : within courtMin courtMax (moveAI target z).
Proof.
  unfold within, moveAI.
  set (z1 := if Qltb 0.1 _ then _ else _). clearbody z1.
  unfold_consts. split_abs; lra.
Qed.

Lemma updatePaddles_paddle2 (keys : Keys) (r : Q) (s : State) :
  within courtMin courtMax (paddle2_z (updatePaddles keys r s)).
Proof.
  unfold updatePaddles, launchBall. cbn.
  destruct (keys " " && negb (ballInPlay s)); cbn;
    [ destruct (negb (ballInPlay s)); cbn | ]; apply moveAI_within.
Qed.

Lemma updatePaddles_paddle1 (keys : Keys) (r : Q) (s : State) :
  paddle1_z (updatePaddles keys r s) = movePlayer keys (paddle1_z s).
Proof.
  unfold updatePaddles, launchBall. cbn.
  destruct (keys " " && negb (ballInPlay s)); cbn;
    [ destruct (negb (ballInPlay s)); cbn | ]; reflexivity.
Qed.

(** The player's paddle is only tested before its step: it can pass a
    bound by less than one step, and no further. *)
Lemma movePlayer_overshoot (keys : Keys) (z : Q) :
  courtMin - paddleSpeed < z < courtMax + paddleSpeed ->
  courtMin - paddleSpeed < movePlayer keys z < courtMax + paddleSpeed.
Proof.
  unfold movePlayer. unfold_consts. intros [Hlo Hhi].
  destruct (keys "a" || keys "arrowleft"), (keys "d" || keys "arrowright");
    cbn; split_tests; lra.
Qed.

(** C1, at the failing input: from the constructor's state, with the left
    key held, the fourteenth frame steps the player's paddle from -3.9 to
    -4.2, outside the court bounds [-4, 4] that the same method enforces
    on the AI paddle. *)
Theorem player_paddle_leaves_court :
  paddle1_z (frames 13 (holding "a") 0.5 0.5 initial) == -3.9 /\
  paddle1_z leftHeld == -4.2 /\
  ~ within courtMin courtMax (paddle1_z leftHeld).
Proof.
  split; [ vm_compute; reflexivity | ].
  split; [ vm_compute; reflexivity | ].
  unfold within. intros [Hlo _]. vm_compute in Hlo. apply Hlo. reflexivity.
Qed.

(** *** Speeds *)

Lemma normalizeX_range (vx : Q) :
  ~ vx == 0 -> within minSpeed maxSpeed (Qabs (normalizeX vx)).
Proof.
  intros Hnz. unfold within, normalizeX, Qsign. unfold_consts.
  split_tests; split_abs; lra.
Qed.

Lemma normalizeZ_range (vz : Q) :
  within 0 maxVerticalSpeed (Qabs (normalizeZ vz)).
Proof.
  unfold within, normalizeZ, Qsign. unfold_consts.
  split_tests; split_abs; lra.
Qed.

(** The collision and wall blocks never stop the ball along the court. *)
Lemma blocks_keep_moving (r : Q) (s : State) :
  ~ ballSpeed_x s == 0 ->
  ~ ballSpeed_x (courtBoundaries r (afterPaddles s)) == 0.
Proof.
  intros Hnz.
  unfold courtBoundaries, afterPaddles, aiCollision, playerCollision.
  repeat match goal with
         | |- context [if ?b then _ else _] => destruct b; fields
         end; split_abs; lra.
Qed.

Lemma blocks_keep_inPlay (r : Q) (s : State) :
  ballInPlay (normalize (courtBoundaries r (afterPaddles s))) = ballInPlay s.
Proof.
  unfold normalize, courtBoundaries, afterPaddles, aiCollision,
    playerCollision.
  repeat match goal with
         | |- context [if ?b then _ else _] => destruct b; fields
         end; reflexivity.
Qed.

Lemma scoring_cases (s : State) :
  scoring s = s \/
  (ballInPlay (scoring s) = false /\ ballSpeed_x (scoring s) = 0
   /\ ballSpeed_z (scoring s) = 0).
Proof.
  unfold scoring.
  destruct (Qltb 10 (ball_x s)); [ right; cbn; auto | ].
  destruct (Qltb (ball_x s) (-10)); [ right; cbn; auto | left; reflexivity ].
Qed.

Lemma updateBall_speeds (r : Q) (s : State) :
  readyToMove s -> speedsInRange (updateBall r s).
Proof.
  unfold readyToMove, updateBall.
  destruct (ballInPlay s) eqn:Hplay; cbn.
  - intros Hnz.
    destruct (scoring_cases (normalize (courtBoundaries r (afterPaddles s))))
      as [E | (Hout & Hx & Hz)]; fold (afterPaddles s).
    + rewrite E. unfold speedsInRange.
      rewrite blocks_keep_inPlay, Hplay. cbn. split.
      * apply normalizeX_range. now apply blocks_keep_moving.
      * apply normalizeZ_range.
    + unfold speedsInRange. rewrite Hout, Hx, Hz. split; reflexivity.
  - intros H. unfold speedsInRange. rewrite Hplay. exact H.
Qed.

(** [updatePaddles] touches the ball's velocity only by serving. *)
Lemma updatePaddles_serves (keys : Keys) (r : Q) (s : State) :
  keys " " = true -> ballInPlay s = false ->
  ballInPlay (updatePaddles keys r s) = true
  /\ ballSpeed_x (updatePaddles keys r s) = serveSpeed
  /\ ballSpeed_z (updatePaddles keys r s) = (r - 0.5) * 0.15.
Proof.
  intros Hk Hp. unfold updatePaddles, launchBall. fields.
  rewrite Hk, Hp. cbn [negb andb]. fields. auto.
Qed.

Lemma updatePaddles_no_serve (keys : Keys) (r : Q) (s : State) :
  keys " " && negb (ballInPlay s) = false ->
  ballInPlay (updatePaddles keys r s) = ballInPlay s
  /\ ballSpeed_x (updatePaddles keys r s) = ballSpeed_x s
  /\ ballSpeed_z (updatePaddles keys r s) = ballSpeed_z s.
Proof.
  intros Hk. unfold updatePaddles. fields. rewrite Hk. fields. auto.
Qed.

Lemma updatePaddles_ready (keys : Keys) (r : Q) (s : State) :
  speedsInRange s -> readyToMove (updatePaddles keys r s).
Proof.
  unfold speedsInRange, readyToMove.
  destruct (keys " " && negb (ballInPlay s)) eqn:Hk.
  - apply andb_prop in Hk. destruct Hk as [Hk Hp].
    apply negb_true_iff in Hp.
    destruct (updatePaddles_serves keys r s Hk Hp) as (-> & -> & _).
    intros _. unfold_consts. intro H. vm_compute in H. discriminate.
  - destruct (updatePaddles_no_serve keys r s Hk) as (-> & -> & ->).
    destruct (ballInPlay s); [ | auto ].
    unfold within. unfold_consts. intros [[Hlo _] _] Hz.
    rewrite Hz in Hlo. vm_compute in Hlo. apply Hlo. reflexivity.
Qed.

Lemma animate_speeds (keys : Keys) (rl rw : Q) (s : State) :
  speedsInRange s -> speedsInRange (animate keys rl rw s).
Proof.
  intros H. unfold animate. now apply updateBall_speeds, updatePaddles_ready.
Qed.

Lemma play_speeds (inputs : list Input) (s : State) :
  speedsInRange s -> speedsInRange (play inputs s).
Proof.
  revert s. induction inputs as [| i rest IH]; intros s H; cbn.
  - exact H.
  - apply IH. now apply animate_speeds.
Qed.

Lemma initial_speeds : speedsInRange initial.
Proof. cbn. split; reflexivity. Qed.

(** *** What the blocks of [updateBall] leave alone *)

Ltac each_branch :=
  repeat match goal with
         | |- context [if ?b then _ else _] => destruct b; fields
         end.

Lemma blocks_frame (r : Q) (s : State) :
  let s' := normalize (courtBoundaries r (afterPaddles s)) in
  ball_x s' = ball_x s + ballSpeed_x s
  /\ ball_z s' = ball_z s + ballSpeed_z s
  /\ paddle1_z s' = paddle1_z s /\ paddle2_z s' = paddle2_z s
  /\ score_player s' = score_player s /\ score_ai s' = score_ai s
  /\ lastAiTarget s' = lastAiTarget s.
Proof.
  unfold normalize, courtBoundaries, afterPaddles, aiCollision,
    playerCollision.
  each_branch; repeat split; reflexivity.
Qed.

(** *** Scoring *)

Lemma point_for_player (r : Q) (s : State) :
  ballInPlay s = true -> 10 < ball_x s + ballSpeed_x s ->
  let s' := updateBall r s in
  score_player s' = S (score_player s) /\ score_ai s' = score_ai s
  /\ ballInPlay s' = false
  /\ ballSpeed_x s' = 0 /\ ballSpeed_z s' = 0
  /\ ball_x s' = -8 /\ ball_z s' = paddle1_z s.
Proof.
  intros Hplay Hout. unfold updateBall. rewrite Hplay. cbn [negb].
  fold (afterPaddles s).
  destruct (blocks_frame r s) as (Hx & _ & Hp1 & _ & Hsp & Hsa & _).
  cbv zeta in *. unfold scoring. rewrite Hx.
  destruct (Qltb_spec 10 (ball_x s + ballSpeed_x s)); [ | contradiction ].
  fields. rewrite Hsp, Hsa, Hp1. repeat split; reflexivity.
Qed.

Lemma point_for_ai (r : Q) (s : State) :
  ballInPlay s = true -> ball_x s + ballSpeed_x s < -10 ->
  let s' := updateBall r s in
  score_ai s' = S (score_ai s) /\ score_player s' = score_player s
  /\ ballInPlay s' = false
  /\ ballSpeed_x s' = 0 /\ ballSpeed_z s' = 0
  /\ ball_x s' = -8 /\ ball_z s' = paddle1_z s.
Proof.
  intros Hplay Hout. unfold updateBall. rewrite Hplay. cbn [negb].
  fold (afterPaddles s).
  destruct (blocks_frame r s) as (Hx & _ & Hp1 & _ & Hsp & Hsa & _).
  cbv zeta in *. unfold scoring. rewrite Hx.
  destruct (Qltb_spec 10 (ball_x s + ballSpeed_x s)); [ lra | ].
  destruct (Qltb_spec (ball_x s + ballSpeed_x s) (-10)); [ | contradiction ].
  fields. rewrite Hsp, Hsa, Hp1. repeat split; reflexivity.
Qed.

(** No point is scored while the ball is between the two back lines. *)
Lemma no_point (r : Q) (s : State) :
  ballInPlay s = true ->
  -10 <= ball_x s + ballSpeed_x s <= 10 ->
  updateBall r s = normalize (courtBoundaries r (afterPaddles s)).
Proof.
  intros Hplay Hin. unfold updateBall. rewrite Hplay. cbn [negb].
  fold (afterPaddles s).
  destruct (blocks_frame r s) as (Hx & _).
  cbv zeta in *. unfold scoring. rewrite Hx.
  destruct (Qltb_spec 10 (ball_x s + ballSpeed_x s)); [ lra | ].
  destruct (Qltb_spec (ball_x s + ballSpeed_x s) (-10)); [ lra | ].
  reflexivity.
Qed.

(** [updateBall] never moves a paddle. *)
Lemma updateBall_paddles (r : Q) (s : State) :
  paddle1_z (updateBall r s) = paddle1_z s
  /\ paddle2_z (updateBall r s) = paddle2_z s
  /\ lastAiTarget (updateBall r s) = lastAiTarget s.
Proof.
  unfold updateBall. destruct (ballInPlay s); cbn [negb]; [ | auto ].
  fold (afterPaddles s).
  destruct (blocks_frame r s) as (_ & _ & Hp1 & Hp2 & _ & _ & Hl).
  cbv zeta in *. unfold scoring.
  each_branch; rewrite ?Hp1, ?Hp2, ?Hl; auto.
Qed.

(** *** Paddle hits *)

Lemma hitsPlayer_band (s : State) :
  hitsPlayer s = true ->
  -9.2 <= ball_x s <= -8.8
  /\ Qabs (ball_z s - paddle1_z s) < paddleHitbox.
Proof.
  unfold hitsPlayer. intros H.
  apply andb_prop in H. destruct H as [H Hz].
  apply andb_prop in H. destruct H as [Hhi Hlo].
  destruct (Qleb_spec (ball_x s) (-8.8)); [ | discriminate ].
  destruct (Qleb_spec (-9.2) (ball_x s)); [ | discriminate ].
  destruct (Qltb_spec (Qabs (ball_z s - paddle1_z s)) paddleHitbox);
    [ | discriminate ].
  auto.
Qed.

Lemma hitsAI_band (s : State) :
  hitsAI s = true ->
  8.8 <= ball_x s <= 9.2
  /\ Qabs (ball_z s - paddle2_z s) < paddleHitbox.
Proof.
  unfold hitsAI. intros H.
  apply andb_prop in H. destruct H as [H Hz].
  apply andb_prop in H. destruct H as [Hlo Hhi].
  destruct (Qleb_spec 8.8 (ball_x s)); [ | discriminate ].
  destruct (Qleb_spec (ball_x s) 9.2); [ | discriminate ].
  destruct (Qltb_spec (Qabs (ball_z s - paddle2_z s)) paddleHitbox);
    [ | discriminate ].
  auto.
Qed.

(** A hit at the player's paddle sends the ball towards the AI. *)
Lemma hit_at_player (r : Q) (s : State) :
  ballInPlay s = true -> hitsPlayer (integrate s) = true ->
  ballSpeed_x (updateBall r s) = normalizeX (Qabs (ballSpeed_x s) * 1.03).
Proof.
  intros Hplay Hhit.
  destruct (hitsPlayer_band _ Hhit) as [Hband _]. fields.
  rewrite no_point by (try assumption; lra).
  unfold normalize, courtBoundaries, afterPaddles, playerCollision.
  rewrite Hhit. unfold aiCollision, hitsAI. fields.
  destruct (Qleb_spec 8.8 (ball_x s + ballSpeed_x s)); [ lra | ].
  cbn [andb]. each_branch; reflexivity.
Qed.

(** A hit at the AI's paddle sends the ball towards the player. *)
Lemma hit_at_ai (r : Q) (s : State) :
  ballInPlay s = true -> hitsAI (integrate s) = true ->
  ballSpeed_x (updateBall r s) = normalizeX (- Qabs (ballSpeed_x s) * 1.03).
Proof.
  intros Hplay Hhit.
  destruct (hitsAI_band _ Hhit) as [Hband _]. fields.
  rewrite no_point by (try assumption; lra).
  assert (Hno : hitsPlayer (integrate s) = false).
  { unfold hitsPlayer. fields.
    destruct (Qleb_spec (ball_x s + ballSpeed_x s) (-8.8)); [ lra | ].
    reflexivity. }
  unfold normalize, courtBoundaries, afterPaddles, playerCollision.
  rewrite Hno. unfold aiCollision. rewrite Hhit. each_branch; reflexivity.
Qed.

(** The speed after a hit: faster than before unless the cap is reached,
    and never beyond the cap. *)
Lemma sped_up_forward (v : Q) :
  ~ v == 0 ->
  let w := normalizeX (Qabs v * 1.03) in
  0 < w /\ w <= maxSpeed
  /\ (Qabs v < maxSpeed -> Qabs v < w)
  /\ (maxSpeed <= Qabs v -> w == maxSpeed).
Proof.
  intros Hnz. unfold normalizeX, Qsign. unfold_consts. cbv zeta.
  split_tests; split_abs; repeat split; intros; lra.
Qed.

Lemma sped_up_backward (v : Q) :
  ~ v == 0 ->
  let w := normalizeX (- Qabs v * 1.03) in
  w < 0 /\ - maxSpeed <= w
  /\ (Qabs v < maxSpeed -> Qabs v < - w)
  /\ (maxSpeed <= Qabs v -> w == - maxSpeed).
Proof.
  intros Hnz. unfold normalizeX, Qsign. unfold_consts. cbv zeta.
  split_tests; split_abs; repeat split; intros; lra.
Qed.

(** *** Side walls *)

Lemma wall_block (r : Q) (s : State) :
  beyondWall s = true ->
  ballSpeed_z (courtBoundaries r s) = wallReflect (ballSpeed_z s) + wallNoise r
  /\ ballSpeed_x (courtBoundaries r s) = ballSpeed_x s.
Proof.
  intros H. unfold courtBoundaries. rewrite H. fields. auto.
Qed.

Lemma wall_block_idle (r : Q) (s : State) :
  beyondWall s = false -> courtBoundaries r s = s.
Proof.
  intros H. unfold courtBoundaries. now rewrite H.
Qed.

Lemma wallReflect_damps (v : Q) :
  Qabs (wallReflect v) == 0.9 * Qabs v
  /\ (0 < v -> wallReflect v < 0)
  /\ (v < 0 -> 0 < wallReflect v)
  /\ (~ v == 0 -> Qabs (wallReflect v) < Qabs v).
Proof.
  unfold wallReflect. split_abs; repeat split; intros; lra.
Qed.

Lemma wallNoise_bounded (r : Q) :
  0 <= r < 1 -> Qabs (wallNoise r) <= 0.025.
Proof.
  unfold wallNoise. intros [Hlo Hhi]. split_abs; lra.
Qed.

(** *** The AI's target *)

Lemma aiTarget_towards (bx bz vx vz : Q) :
  0 < vx ->
  aiTarget bx bz vx vz ==
  clamp courtMin courtMax (bz + vz * (Qabs (paddle2_x - bx) / vx)).
Proof.
  intros Hvx. unfold aiTarget.
  destruct (Qltb_spec 0 vx); [ | contradiction ].
  cbv zeta. apply max_min_is_clamp. unfold_consts. lra.
Qed.

Lemma updatePaddles_smooths (keys : Keys) (r : Q) (s : State) :
  lastAiTarget (updatePaddles keys r s) =
  lastAiTarget s * 0.8
  + aiTarget (ball_x s)
      (if negb (ballInPlay s) then movePlayer keys (paddle1_z s)
       else ball_z s)
      (ballSpeed_x s) (ballSpeed_z s) * 0.2.
Proof.
  unfold updatePaddles, launchBall. fields.
  each_branch; reflexivity.
Qed.

(** *** Serving *)

Lemma updateBall_docked (r : Q) (s : State) :
  ballInPlay s = false -> updateBall r s = s.
Proof.
  intros H. unfold updateBall. now rewrite H.
Qed.

(** While the ball waits, it follows the player's paddle. *)
Lemma docked_follows (keys : Keys) (rl rw : Q) (s : State) :
  ballInPlay s = false -> keys " " = false ->
  let s' := animate keys rl rw s in
  ballInPlay s' = false
  /\ ball_z s' = paddle1_z s' /\ ball_x s' = ball_x s
  /\ paddle1_z s' = movePlayer keys (paddle1_z s).
Proof.
  intros Hp Hk. unfold animate.
  assert (E : updatePaddles keys rl s =
              {| paddle1_z := movePlayer keys (paddle1_z s);
                 paddle2_z := paddle2_z (updatePaddles keys rl s);
                 ball_x := ball_x s;
                 ball_z := movePlayer keys (paddle1_z s);
                 ballSpeed_x := ballSpeed_x s; ballSpeed_z := ballSpeed_z s;
                 score_player := score_player s; score_ai := score_ai s;
                 ballInPlay := false;
                 lastAiTarget := lastAiTarget (updatePaddles keys rl s);
                 instruction := instruction s |}).
  { unfold updatePaddles. fields. rewrite Hk, Hp. cbn [negb andb]. fields.
    reflexivity. }
  rewrite E. rewrite updateBall_docked by reflexivity. fields. auto.
Qed.

(** The serve: only the space key starts a rally, and it always sends the
    ball towards the AI at the serve speed. *)
Lemma serve_by_player (keys : Keys) (r : Q) (s : State) :
  ballInPlay s = false -> keys " " = true ->
  let s' := updatePaddles keys r s in
  ballInPlay s' = true
  /\ ballSpeed_x s' = serveSpeed
  /\ ball_x s' = ball_x s
  /\ ball_z s' = paddle1_z s'.
Proof.
  intros Hp Hk. unfold updatePaddles, launchBall. fields.
  rewrite Hk, Hp. cbn [negb andb]. fields. auto.
Qed.

(** Off zero, the normalisation of a sped-up speed is the clamp of its
    size, with the sign the hit gave it. *)
Lemma normalizeX_forward (v : Q) :
  ~ v == 0 ->
  normalizeX (Qabs v * 1.03) == clamp minSpeed maxSpeed (Qabs v * 1.03).
Proof.
  intros Hnz. unfold normalizeX, clamp, Qsign. unfold_consts.
  split_tests; split_abs; lra.
Qed.

Lemma normalizeX_backward (v : Q) :
  ~ v == 0 ->
  normalizeX (- Qabs v * 1.03) == - clamp minSpeed maxSpeed (Qabs v * 1.03).
Proof.
  intros Hnz. unfold normalizeX, clamp, Qsign. unfold_consts.
  split_tests; split_abs; lra.
Qed.

(** The paddle blocks leave the position and the flag of the moved ball. *)
Lemma afterPaddles_frame (s : State) :
  ball_z (afterPaddles s) = ball_z s + ballSpeed_z s
  /\ ball_x (afterPaddles s) = ball_x s + ballSpeed_x s
  /\ ballInPlay (afterPaddles s) = ballInPlay s.
Proof.
  unfold afterPaddles, aiCollision, playerCollision.
  each_branch; auto.
Qed.

Lemma afterPaddles_no_hit (s : State) :
  hitsPlayer (integrate s) = false -> hitsAI (integrate s) = false ->
  afterPaddles s = integrate s.
Proof.
  intros Hp Ha. unfold afterPaddles, playerCollision. rewrite Hp.
  unfold aiCollision. rewrite Ha. reflexivity.
Qed.

(** A whole frame with the moved ball beyond a side wall and no point. *)
Lemma wall_frame (r : Q) (s : State) :
  ballInPlay s = true -> beyondWall (integrate s) = true ->
  -10 <= ball_x s + ballSpeed_x s <= 10 ->
  ballSpeed_z (updateBall r s) =
  normalizeZ (wallReflect (ballSpeed_z (afterPaddles s)) + wallNoise r).
Proof.
  intros Hplay Hwall Hin.
  rewrite no_point by assumption.
  assert (Hw : beyondWall (afterPaddles s) = true).
  { unfold beyondWall in *. destruct (afterPaddles_frame s) as (-> & _).
    exact Hwall. }
  unfold normalize. fields.
  destruct (wall_block r (afterPaddles s) Hw) as [-> _]. reflexivity.
Qed.

(** What the normalisation leaves of a reflection with its random term. *)
Lemma wall_frame_sign (r v : Q) :
  0 <= r < 1 ->
  let w := normalizeZ (wallReflect v + wallNoise r) in
  Qabs w <= (0.9 * Qabs v + 0.025) * 0.98
  /\ (0.025 < 0.9 * v -> w < 0)
  /\ (0.9 * v < -0.025 -> 0 < w).
Proof.
  intros Hr. cbv zeta.
  unfold normalizeZ, wallReflect, wallNoise, Qsign.
  unfold maxVerticalSpeed, maxSpeed.
  split_tests; split_abs; repeat split; intros; lra.
Qed.

End SingleFacts.

(** ** The networked game *)

Module NetFacts.
Import Net.

Ltac fields :=
  cbn [gameActive isHost currentRoomCode playerReady opponentReady leftScore
       rightScore peer peerConnected useWebRTC leftPaddle rightPaddle ball
       screen winnerDisplay
       set_gameActive set_isHost set_currentRoomCode set_ready set_scores
       set_peer set_peerConnected set_useWebRTC set_leftPaddle
       set_rightPaddle set_ball set_screen set_winnerDisplay
       p_x p_y p_dy p_speed b_x b_y b_dx b_dy b_speed
       set_y set_dy set_vel fst snd] in *.

Ltac unfold_consts :=
  unfold paddleHeight, paddleWidth, ballSize, speedGate, speedUp in *.

(** Running a handler symbolically: open the combinators, read the fields
    and split on every test that is left. *)
Ltac open_act :=
  unfold seq, cond, modify, reading, emit, skip, sendWebRTCMessage,
    directInUse, relayInUse in *; fields.

Ltac run_act :=
  do 3 open_act;
  repeat (match goal with
          | |- context [if ?b then _ else _] => destruct b eqn:?
          end; do 2 open_act).

(** *** Paddles *)

Lemma keepInBounds_within (canvas_height y : Q) :
  paddleHeight <= canvas_height ->
  within 0 (canvas_height - paddleHeight) (keepInBounds canvas_height y).
Proof.
  unfold within, keepInBounds. unfold_consts. intros H.
  split_tests; lra.
Qed.

Lemma movePaddles_within (canvas_height : Q) (s : State) :
  paddleHeight <= canvas_height ->
  let s' := fst (movePaddles canvas_height s) in
  within 0 (canvas_height - paddleHeight) (p_y (leftPaddle s'))
  /\ within 0 (canvas_height - paddleHeight) (p_y (rightPaddle s')).
Proof.
  intros H. unfold movePaddles. run_act.
  all: unfold stepPaddle; fields; split; now apply keepInBounds_within.
Qed.

(** *** The ball on the host *)

Lemma moveBall_range (b : Ball) : ballInRange b -> ballInRange (moveBall b).
Proof. unfold ballInRange, moveBall. fields. auto. Qed.

Lemma wallCollision_range (canvas_height : Q) (b : Ball) :
  ballInRange b -> ballInRange (wallCollision canvas_height b).
Proof.
  unfold ballInRange, wallCollision.
  destruct (atWall canvas_height b); fields; [ | auto ].
  intros (Hs & Hlo & Hhi & Hy). repeat split; try assumption.
  split_abs; lra.
Qed.

(** The spin a paddle gives depends on where the ball meets it; the
    overlap test keeps that within the paddle. *)
Lemma bounceOff_range (p : Paddle) (b : Ball) :
  p_y p <= b_y b + ballSize -> b_y b <= p_y p + paddleHeight ->
  ballInRange b -> ballInRange (bounceOff p b).
Proof.
  unfold ballInRange, bounceOff. unfold_consts. cbv zeta. fields.
  intros Hlo Hhi (Hs & Hdlo & Hdhi & Hy).
  split; [ assumption | ].
  split; [ split_tests; split_abs; lra | ].
  split; [ split_tests; split_abs; lra | ].
  assert (E : (b_y b - p_y p) / 100 == (b_y b - p_y p) * 0.01) by field.
  set (h := (b_y b - p_y p) / 100) in *. clearbody h.
  split_abs; lra.
Qed.

Lemma hitsLeft_overlap (p : Paddle) (b : Ball) :
  hitsLeft p b = true ->
  b_x b <= p_x p + paddleWidth
  /\ p_y p <= b_y b + ballSize /\ b_y b <= p_y p + paddleHeight
  /\ b_dx b < 0.
Proof.
  unfold hitsLeft. intros H.
  repeat (apply andb_prop in H; let H' := fresh "H" in destruct H as [H H']).
  split_tests; try discriminate. auto.
Qed.

Lemma hitsRight_overlap (p : Paddle) (b : Ball) :
  hitsRight p b = true ->
  p_x p <= b_x b + ballSize
  /\ p_y p <= b_y b + ballSize /\ b_y b <= p_y p + paddleHeight
  /\ 0 < b_dx b.
Proof.
  unfold hitsRight. intros H.
  repeat (apply andb_prop in H; let H' := fresh "H" in destruct H as [H H']).
  split_tests; try discriminate. auto.
Qed.

Lemma leftCollision_range (p : Paddle) (b : Ball) :
  ballInRange b -> ballInRange (leftCollision p b).
Proof.
  intros H. unfold leftCollision.
  destruct (hitsLeft p b) eqn:Hhit; [ | assumption ].
  destruct (hitsLeft_overlap _ _ Hhit) as (_ & Hlo & Hhi & _).
  now apply bounceOff_range.
Qed.

Lemma rightCollision_range (p : Paddle) (b : Ball) :
  ballInRange b -> ballInRange (rightCollision p b).
Proof.
  intros H. unfold rightCollision.
  destruct (hitsRight p b) eqn:Hhit; [ | assumption ].
  destruct (hitsRight_overlap _ _ Hhit) as (_ & Hlo & Hhi & _).
  now apply bounceOff_range.
Qed.

Lemma coin_cases (r : Q) : coin r = 1 \/ coin r = -1.
Proof. unfold coin. destruct (Qltb 0.5 r); auto. Qed.

Lemma resetBall_range (canvas_width canvas_height direction r : Q) (b : Ball) :
  direction = 1 \/ direction = -1 ->
  b_speed b == 5 ->
  ballInRange (resetBall canvas_width canvas_height direction r b).
Proof.
  intros Hd Hs. unfold ballInRange, resetBall. unfold_consts. fields.
  destruct (coin_cases r) as [-> | ->], Hd as [-> | ->];
    repeat split; try assumption; split_abs; lra.
Qed.

Lemma simulateBall_range (canvas_width canvas_height r : Q) (s : State) :
  ballInRange (ball s) ->
  ballInRange (ball (simulateBall canvas_width canvas_height r s)).
Proof.
  intros H. unfold simulateBall, checkCollisions. fields.
  set (b := rightCollision _ _).
  assert (Hb : ballInRange b).
  { subst b. apply rightCollision_range, leftCollision_range,
      wallCollision_range, moveBall_range, H. }
  clearbody b. unfold scoring. fields.
  destruct (outLeft b); fields.
  - apply resetBall_range; [ auto | apply Hb ].
  - destruct (outRight canvas_width b); fields; [ | exact Hb ].
    apply resetBall_range; [ auto | apply Hb ].
Qed.

Lemma resetGameState_range (r1 r2 : Q) (s : State) :
  ballInRange (ball (fst (resetGameState r1 r2 s))).
Proof.
  unfold resetGameState. run_act. unfold ballInRange. unfold_consts. fields.
  destruct (coin_cases r1) as [-> | ->], (coin_cases r2) as [-> | ->];
    repeat split; try reflexivity; vm_compute; congruence.
Qed.

(** *** Scoring on the host *)

Lemma collisions_frame (canvas_height : Q) (s : State) :
  let b := afterCollisions canvas_height s in
  b_x b = b_x (ball s) + b_dx (ball s)
  /\ b_y b = b_y (ball s) + b_dy (ball s)
  /\ b_speed b = b_speed (ball s).
Proof.
  unfold afterCollisions, rightCollision, leftCollision, wallCollision,
    bounceOff, moveBall. cbv zeta.
  repeat (match goal with
          | |- context [if ?b then _ else _] => destruct b
          end; fields); auto.
Qed.

Lemma simulateBall_scoring (canvas_width canvas_height r : Q) (s : State) :
  simulateBall canvas_width canvas_height r s =
  scoring canvas_width canvas_height r
    (set_ball (afterCollisions canvas_height s) s).
Proof.
  unfold simulateBall, checkCollisions, afterCollisions. fields.
  reflexivity.
Qed.

Lemma point_for_right (canvas_width canvas_height r : Q) (s : State) :
  b_x (ball s) + b_dx (ball s) < 0 ->
  let s' := simulateBall canvas_width canvas_height r s in
  rightScore s' = S (rightScore s) /\ leftScore s' = leftScore s
  /\ b_x (ball s') = canvas_width / 2 /\ b_y (ball s') = canvas_height / 2
  /\ b_dx (ball s') = b_speed (ball s) * 1
  /\ b_dy (ball s') = b_speed (ball s) * coin r.
Proof.
  intros Hout. cbv zeta. rewrite simulateBall_scoring.
  destruct (collisions_frame canvas_height s) as (Hx & _ & Hs).
  cbv zeta in *. unfold scoring, outLeft, outRight, resetBall. fields.
  rewrite Hx, Hs.
  destruct (Qltb_spec (b_x (ball s) + b_dx (ball s)) 0); [ | contradiction ].
  fields. repeat split; reflexivity.
Qed.

Lemma point_for_left (canvas_width canvas_height r : Q) (s : State) :
  0 <= b_x (ball s) + b_dx (ball s) ->
  canvas_width < b_x (ball s) + b_dx (ball s) ->
  let s' := simulateBall canvas_width canvas_height r s in
  leftScore s' = S (leftScore s) /\ rightScore s' = rightScore s
  /\ b_x (ball s') = canvas_width / 2 /\ b_y (ball s') = canvas_height / 2
  /\ b_dx (ball s') = b_speed (ball s) * -1
  /\ b_dy (ball s') = b_speed (ball s) * coin r.
Proof.
  intros Hin Hout. cbv zeta. rewrite simulateBall_scoring.
  destruct (collisions_frame canvas_height s) as (Hx & _ & Hs).
  cbv zeta in *. unfold scoring, outLeft, outRight, resetBall. fields.
  rewrite Hx, Hs.
  destruct (Qltb_spec (b_x (ball s) + b_dx (ball s)) 0); [ lra | ].
  destruct (Qltb_spec canvas_width (b_x (ball s) + b_dx (ball s)));
    [ | contradiction ].
  fields. repeat split; reflexivity.
Qed.

(** *** Paddle hits and walls on the host *)

Lemma bounce_turns (p : Paddle) (b : Ball) :
  let v := b_dx b in
  let w := b_dx (bounceOff p b) in
  (v < 0 -> 0 < w) /\ (0 < v -> w < 0)
  /\ (Qabs v < speedGate -> Qabs w == Qabs v * speedUp)
  /\ (speedGate <= Qabs v -> Qabs w == Qabs v).
Proof.
  unfold bounceOff. unfold_consts. cbv zeta. fields.
  split_tests; split_abs; repeat split; intros; lra.
Qed.

Lemma wallCollision_flips (canvas_height : Q) (b : Ball) :
  atWall canvas_height b = true ->
  b_dy (wallCollision canvas_height b) = - b_dy b
  /\ b_dx (wallCollision canvas_height b) = b_dx b.
Proof.
  intros H. unfold wallCollision. rewrite H. fields. auto.
Qed.

(** The simulation touches the ball and the scores, nothing else. *)
Lemma simulateBall_session (canvas_width canvas_height r : Q) (s : State) :
  let s' := simulateBall canvas_width canvas_height r s in
  gameActive s' = gameActive s /\ isHost s' = isHost s
  /\ currentRoomCode s' = currentRoomCode s
  /\ peer s' = peer s /\ peerConnected s' = peerConnected s
  /\ useWebRTC s' = useWebRTC s
  /\ leftPaddle s' = leftPaddle s /\ rightPaddle s' = rightPaddle s
  /\ screen s' = screen s /\ winnerDisplay s' = winnerDisplay s.
Proof.
  cbv zeta. rewrite simulateBall_scoring. unfold scoring.
  repeat (match goal with
          | |- context [if ?b then _ else _] => destruct b
          end; fields); repeat split; reflexivity.
Qed.

Lemma simulateBall_useWebRTC (w h r : Q) (s : State) :
  useWebRTC (simulateBall w h r s) = useWebRTC s.
Proof. apply (simulateBall_session w h r s). Qed.

Lemma simulateBall_peerConnected (w h r : Q) (s : State) :
  peerConnected (simulateBall w h r s) = peerConnected s.
Proof. apply (simulateBall_session w h r s). Qed.

Lemma simulateBall_peer (w h r : Q) (s : State) :
  peer (simulateBall w h r s) = peer s.
Proof. apply (simulateBall_session w h r s). Qed.

Lemma simulateBall_gameActive (w h r : Q) (s : State) :
  gameActive (simulateBall w h r s) = gameActive s.
Proof. apply (simulateBall_session w h r s). Qed.

Lemma simulateBall_isHost (w h r : Q) (s : State) :
  isHost (simulateBall w h r s) = isHost s.
Proof. apply (simulateBall_session w h r s). Qed.

Create Rewrite HintDb session.
#[local] Hint Rewrite simulateBall_useWebRTC simulateBall_peerConnected
  simulateBall_peer simulateBall_gameActive simulateBall_isHost : session.

Ltac run_host :=
  do 3 open_act; autorewrite with session in *; fields;
  repeat (match goal with
          | |- context [if ?b then _ else _] => destruct b eqn:?
          end; do 2 open_act; autorewrite with session in *; fields).

(** Closing the branches whose tests contradict what is known. *)
Ltac impossible :=
  try (exfalso;
       rewrite ?negb_true_iff, ?negb_false_iff, ?andb_true_iff,
         ?andb_false_iff, ?orb_true_iff, ?orb_false_iff in *;
       intuition congruence).

(** *** Who owns the ball *)

Ltac open_handlers :=
  unfold handle in *;
  unfold playerLeftHandler, gameLoop, startGame, backToMenu in *;
  unfold update, movePaddles, sendBall, resetGameState, endGame, resetGame,
    cleanUpPeer, handleWebRTCMessage, initializeWebRTC, onOwnPaddle in *.

(** A frame on the guest's side leaves the ball and the scores alone. *)
Lemma guest_frame (canvas_width canvas_height r : Q) (s : State) :
  isHost s = false ->
  let s' := fst (gameLoop canvas_width canvas_height r s) in
  ball s' = ball s /\ leftScore s' = leftScore s
  /\ rightScore s' = rightScore s.
Proof.
  intros Hguest. open_handlers. run_act; impossible; auto.
Qed.

(** A ball update that reaches the guest by the data channel is taken as
    it is. *)
Lemma guest_takes_direct (canvas_width canvas_height : Q)
    (b : Ball) (l r : option nat) (s : State) :
  isHost s = false ->
  let s' := fst (handle canvas_width canvas_height
                   (PeerData (ballUpdate b l r)) s) in
  ball s' = b
  /\ leftScore s' = match l with Some v => v | None => leftScore s end
  /\ rightScore s' = match r with Some v => v | None => rightScore s end.
Proof.
  intros Hguest. open_handlers. run_act; impossible.
  all: unfold updateScore; fields; repeat split; reflexivity.
Qed.

(** The same update arriving through the server is taken only while the
    direct channel is not in use. *)
Lemma guest_takes_relayed (canvas_width canvas_height : Q)
    (b : Ball) (l r : option nat) (s : State) :
  isHost s = false -> relayInUse s = true ->
  let s' := fst (handle canvas_width canvas_height (OnBallUpdate b l r) s) in
  ball s' = b
  /\ leftScore s' = match l with Some v => v | None => leftScore s end
  /\ rightScore s' = match r with Some v => v | None => rightScore s end.
Proof.
  intros Hguest Hrelay. unfold relayInUse in Hrelay.
  open_handlers. run_act; impossible.
  all: unfold updateScore; fields; repeat split; reflexivity.
Qed.

Lemma relayed_ball_dropped (canvas_width canvas_height : Q)
    (b : Ball) (l r : option nat) (s : State) :
  relayInUse s = false ->
  handle canvas_width canvas_height (OnBallUpdate b l r) s = (s, []).
Proof.
  intros Hrelay. unfold relayInUse in Hrelay.
  open_handlers. run_act; impossible. reflexivity.
Qed.

(** The host never takes a ball from a message. *)
Lemma host_keeps_ball (canvas_width canvas_height : Q)
    (b : Ball) (l r : option nat) (s : State) :
  isHost s = true ->
  handle canvas_width canvas_height (PeerData (ballUpdate b l r)) s = (s, [])
  /\ handle canvas_width canvas_height (OnBallUpdate b l r) s = (s, []).
Proof.
  intros Hhost. open_handlers. split; run_act; impossible; reflexivity.
Qed.

(** *** Falling back to the relayed channel *)

Section Fallback.

Variables canvas_width canvas_height : Q.

Let handle := handle canvas_width canvas_height.
Let run := run canvas_width canvas_height.

(** The events that give up the direct channel clear [useWebRTC] and do
    not touch [gameActive]. *)
Lemma fallback_step (e : Event) (s : State) :
  fallsBack e s = true ->
  useWebRTC (fst (handle e s)) = false
  /\ gameActive (fst (handle e s)) = gameActive s.
Proof.
  destruct e; cbn [fallsBack]; try discriminate;
    try match goal with throws : bool |- _ => destruct throws end;
    try discriminate; intros Hfb; subst handle; open_handlers;
    run_host; impossible; auto.
Qed.

(** Once [useWebRTC] is false no handler sets it again, none builds a new
    peer, and only the data channel's own handlers still send on it. *)
Lemma handle_after_fallback (e : Event) (s : State) :
  useWebRTC s = false ->
  useWebRTC (fst (handle e s)) = false
  /\ noNewPeer (snd (handle e s)) = true
  /\ (isPeerEvent e = false -> noDirect (snd (handle e s)) = true).
Proof.
  intros Hoff.
  destruct e; try match goal with m : RtcMsg |- _ => destruct m end;
    try match goal with p : Side |- _ => destruct p end;
    try match goal with throws : bool |- _ => destruct throws end;
    cbn [isPeerEvent]; subst handle; open_handlers; run_host; impossible;
    repeat split; try reflexivity; try assumption; try discriminate;
    intros; reflexivity.
Qed.

(** With the peer disconnected as well, nothing is sent directly until a
    connect event arrives. *)
Lemma handle_disconnected (e : Event) (s : State) :
  useWebRTC s = false -> peerConnected s = false -> e <> PeerConnect ->
  peerConnected (fst (handle e s)) = false
  /\ noDirect (snd (handle e s)) = true.
Proof.
  intros Hoff Hdis Hne.
  destruct e; try (exfalso; apply Hne; reflexivity);
    try match goal with m : RtcMsg |- _ => destruct m end;
    try match goal with p : Side |- _ => destruct p end;
    try match goal with throws : bool |- _ => destruct throws end;
    subst handle; open_handlers; run_host; impossible;
    repeat split; try reflexivity; try assumption.
Qed.

Lemma run_cons (e : Event) (evs : list Event) (s : State) :
  run (e :: evs) s =
  (fst (run evs (fst (handle e s))),
   (map (pair e) (snd (handle e s)) ++ snd (run evs (fst (handle e s))))%list).
Proof.
  subst run handle. cbn [Net.run].
  destruct (Net.handle canvas_width canvas_height e s) as [s1 o1].
  cbn [fst snd].
  destruct (Net.run canvas_width canvas_height evs s1) as [s2 o2].
  reflexivity.
Qed.

Lemma run_after_fallback (evs : list Event) (s : State) :
  useWebRTC s = false ->
  useWebRTC (fst (run evs s)) = false
  /\ forall e o, In (e, o) (snd (run evs s)) ->
       isNewPeer o = false /\ (isDirect o = true -> isPeerEvent e = true).
Proof.
  revert s. induction evs as [| e evs IH]; intros s Hoff.
  - cbn. split; [ assumption | intros e o [] ].
  - rewrite run_cons. cbn [fst snd].
    destruct (handle_after_fallback e s Hoff) as (Hoff' & Hnew & Hdir).
    destruct (IH _ Hoff') as [Hfin Houts].
    split; [ assumption | ].
    intros e' o Hin. apply in_app_or in Hin. destruct Hin as [Hin | Hin].
    + apply in_map_iff in Hin. destruct Hin as (o' & Heq & Hin).
      injection Heq as <- <-.
      unfold noNewPeer in Hnew. rewrite forallb_forall in Hnew.
      specialize (Hnew _ Hin). apply negb_true_iff in Hnew.
      split; [ assumption | ].
      intros Hd. destruct (isPeerEvent e) eqn:Hp; [ reflexivity | ].
      specialize (Hdir eq_refl). unfold noDirect in Hdir.
      rewrite forallb_forall in Hdir. specialize (Hdir _ Hin).
      rewrite Hd in Hdir. discriminate.
    + now apply Houts.
Qed.

Lemma run_disconnected (evs : list Event) (s : State) :
  useWebRTC s = false -> peerConnected s = false -> ~ In PeerConnect evs ->
  forall e o, In (e, o) (snd (run evs s)) -> isDirect o = false.
Proof.
  revert s. induction evs as [| e evs IH]; intros s Hoff Hdis Hno.
  - cbn. intros e o [].
  - rewrite run_cons. cbn [fst snd].
    assert (Hne : e <> PeerConnect) by (intros ->; apply Hno; now left).
    destruct (handle_disconnected e s Hoff Hdis Hne) as [Hdis' Hdir].
    destruct (handle_after_fallback e s Hoff) as (Hoff' & _).
    intros e' o Hin. apply in_app_or in Hin. destruct Hin as [Hin | Hin].
    + apply in_map_iff in Hin. destruct Hin as (o' & Heq & Hin).
      injection Heq as <- <-.
      unfold noDirect in Hdir. rewrite forallb_forall in Hdir.
      specialize (Hdir _ Hin). now apply negb_true_iff in Hdir.
    + apply (IH _ Hoff' Hdis') with (e := e'); [ | assumption ].
      intros Hin'. apply Hno. now right.
Qed.

End Fallback.

(** *** The opponent leaves *)

(** One run of the player-left handler on a running game: the game is
    over, the notice replaces the winner, and the peer is released. *)
Lemma playerLeft_once (s : State) :
  gameActive s = true ->
  let s' := fst (playerLeftHandler s) in
  gameActive s' = false /\ screen s' = GameOverScreen
  /\ winnerDisplay s' = "Opponent left the game"
  /\ peer s' = false
  /\ (peer s = true -> peerConnected s' = false
                       /\ In DestroyPeer (snd (playerLeftHandler s))).
Proof.
  intros Hact. open_handlers. run_act; impossible;
    unfold winnerText; repeat split; try reflexivity; try assumption;
    try (intros; discriminate); try (intros; impossible);
    cbn; auto 10.
Qed.

(** A second run finds the game already over and goes back to the menu. *)
Lemma playerLeft_again (s : State) :
  gameActive s = false ->
  screen (fst (playerLeftHandler s)) = MenuScreen.
Proof.
  intros Hact. open_handlers. run_act; impossible; reflexivity.
Qed.

(** A frame on the host's side runs the simulation on the ball. *)
Lemma host_frame (canvas_width canvas_height r : Q) (s : State) :
  gameActive s = true -> isHost s = true ->
  let s' := fst (gameLoop canvas_width canvas_height r s) in
  let moved := fst (movePaddles canvas_height s) in
  ball s' = ball (simulateBall canvas_width canvas_height r moved)
  /\ leftScore s' = leftScore (simulateBall canvas_width canvas_height r moved)
  /\ rightScore s' =
     rightScore (simulateBall canvas_width canvas_height r moved).
Proof.
  intros Hact Hhost. open_handlers. run_host; impossible; auto.
Qed.

(** A whole step with the moved ball at the top or bottom wall, no paddle
    hit and no point. *)
Lemma wall_step (w h r : Q) (s : State) :
  let b1 := wallCollision h (moveBall (ball s)) in
  atWall h (moveBall (ball s)) = true ->
  hitsLeft (leftPaddle s) b1 = false ->
  hitsRight (rightPaddle s) b1 = false ->
  0 <= b_x (ball s) + b_dx (ball s) <= w ->
  b_dy (ball (simulateBall w h r s)) = - b_dy (ball s)
  /\ b_dx (ball (simulateBall w h r s)) = b_dx (ball s).
Proof.
  cbv zeta. intros Hwall Hl Hr Hin.
  rewrite simulateBall_scoring. unfold afterCollisions, leftCollision.
  rewrite Hl. unfold rightCollision. rewrite Hr.
  unfold scoring, outLeft, outRight, wallCollision. rewrite Hwall.
  unfold moveBall. fields.
  destruct (Qltb_spec (b_x (ball s) + b_dx (ball s)) 0); [ lra | ].
  destruct (Qltb_spec w (b_x (ball s) + b_dx (ball s))); [ lra | ].
  fields. auto.
Qed.

End NetFacts.

(** ** The claims *)

Ltac qdec := vm_compute; first [ reflexivity | intro; discriminate ].

(** C2 (as amended).  Single-player, as stated: after every frame of a
    session started by the constructor, a ball that is in play has its
    speed along the court within [minSpeed, maxSpeed] and its speed across
    within [0, maxSpeed * 0.6] (and a ball that is not in play has zero
    velocity).  Networked: the host's step has no normalisation block and
    no minSpeed or maxSpeed; from the ball of [resetGameState] it keeps
    [5 <= |dx| < 15 * 1.05] and [|dy| <= 6.5], the gate at 15 only stops
    the next speed-up. *)
Theorem speeds_kept_in_range :
  (forall inputs, Single.speedsInRange (Single.play inputs Single.initial))
  /\ (forall r1 r2 s,
        Net.ballInRange (Net.ball (fst (Net.resetGameState r1 r2 s))))
  /\ (forall w h r s,
        Net.ballInRange (Net.ball s) ->
        Net.ballInRange (Net.ball (Net.simulateBall w h r s))).
Proof.
  split; [ | split ].
  - intros inputs. apply SingleFacts.play_speeds, SingleFacts.initial_speeds.
  - apply NetFacts.resetGameState_range.
  - apply NetFacts.simulateBall_range.
Qed.

Lemma speeds_kept_in_range_witness :
  Single.speedsInRange (Single.play [serveInput] Single.initial)
  /\ Net.ballInRange
       (Net.ball (Net.simulateBall canvasW canvasH 0.7 hostMidGame)).
Proof.
  split.
  - apply (proj1 speeds_kept_in_range).
  - apply (proj2 (proj2 speeds_kept_in_range)).
    repeat split; qdec.
Defined.

(** C2 as stated fails in the networked step: a ball within the range the
    host keeps, slower than the gate of 15, is returned by the left paddle
    with no point scored, and after the step it is faster than the gate,
    the only speed limit of that script, and far outside the speed window
    of the single-player game. *)
Lemma networked_speed_passes_gate :
  let s' := Net.simulateBall canvasW canvasH 0.7 hostFastBall in
  Net.ballInRange (Net.ball hostFastBall)
  /\ Qabs (Net.b_dx (Net.ball hostFastBall)) < Net.speedGate
  /\ Net.leftScore s' = Net.leftScore hostFastBall
  /\ Net.rightScore s' = Net.rightScore hostFastBall
  /\ Net.speedGate < Qabs (Net.b_dx (Net.ball s'))
  /\ ~ within Single.minSpeed Single.maxSpeed (Qabs (Net.b_dx (Net.ball s'))).
Proof.
  cbv zeta. repeat split; try qdec.
  intros [_ H]. vm_compute in H. apply H. reflexivity.
Qed.

(** C3 (as amended).  Single-player: when the moved ball is beyond +10 the
    player's score grows by exactly one, beyond -10 the AI's; either way
    the other score stays, and the ball is docked at x = -8 in front of
    the player's paddle, not in play, with zero velocity.  Networked, on
    the host: when the moved ball is left of 0 the right score grows by
    exactly one, right of the canvas the left score; the ball is put back
    at the centre and relaunched at once with velocity
    [speed * direction] along the court and [speed] or [-speed] across. *)
Theorem point_scored :
  (forall r s,
      Single.ballInPlay s = true ->
      10 < Single.ball_x s + Single.ballSpeed_x s ->
      let s' := Single.updateBall r s in
      Single.score_player s' = S (Single.score_player s)
      /\ Single.score_ai s' = Single.score_ai s
      /\ Single.ballInPlay s' = false
      /\ Single.ballSpeed_x s' = 0 /\ Single.ballSpeed_z s' = 0
      /\ Single.ball_x s' = -8 /\ Single.ball_z s' = Single.paddle1_z s)
  /\ (forall r s,
      Single.ballInPlay s = true ->
      Single.ball_x s + Single.ballSpeed_x s < -10 ->
      let s' := Single.updateBall r s in
      Single.score_ai s' = S (Single.score_ai s)
      /\ Single.score_player s' = Single.score_player s
      /\ Single.ballInPlay s' = false
      /\ Single.ballSpeed_x s' = 0 /\ Single.ballSpeed_z s' = 0
      /\ Single.ball_x s' = -8 /\ Single.ball_z s' = Single.paddle1_z s)
  /\ (forall w h r s,
      Net.b_x (Net.ball s) + Net.b_dx (Net.ball s) < 0 ->
      let s' := Net.simulateBall w h r s in
      Net.rightScore s' = S (Net.rightScore s)
      /\ Net.leftScore s' = Net.leftScore s
      /\ Net.b_x (Net.ball s') = w / 2 /\ Net.b_y (Net.ball s') = h / 2
      /\ Net.b_dx (Net.ball s') = Net.b_speed (Net.ball s) * 1
      /\ Net.b_dy (Net.ball s') = Net.b_speed (Net.ball s) * Net.coin r)
  /\ (forall w h r s,
      0 <= Net.b_x (Net.ball s) + Net.b_dx (Net.ball s) ->
      w < Net.b_x (Net.ball s) + Net.b_dx (Net.ball s) ->
      let s' := Net.simulateBall w h r s in
      Net.leftScore s' = S (Net.leftScore s)
      /\ Net.rightScore s' = Net.rightScore s
      /\ Net.b_x (Net.ball s') = w / 2 /\ Net.b_y (Net.ball s') = h / 2
      /\ Net.b_dx (Net.ball s') = Net.b_speed (Net.ball s) * -1
      /\ Net.b_dy (Net.ball s') = Net.b_speed (Net.ball s) * Net.coin r).
Proof.
  split; [ | split; [ | split ] ].
  - apply SingleFacts.point_for_player.
  - apply SingleFacts.point_for_ai.
  - apply NetFacts.point_for_right.
  - apply NetFacts.point_for_left.
Qed.

Lemma point_scored_witness :
  Single.score_player (Single.updateBall 0.5 lastFrameOfRally) = 1%nat
  /\ Single.score_ai (Single.updateBall 0.5 lastFrameForAI) = 1%nat
  /\ Net.rightScore (Net.simulateBall canvasW canvasH 0.7 hostMidGame) = 3%nat
  /\ Net.leftScore (Net.simulateBall canvasW canvasH 0.7 hostBallRight) = 4%nat.
Proof.
  split; [ | split; [ | split ] ].
  - apply (proj1 point_scored 0.5 lastFrameOfRally); qdec.
  - apply (proj1 (proj2 point_scored) 0.5 lastFrameForAI); qdec.
  - apply (proj1 (proj2 (proj2 point_scored)) canvasW canvasH 0.7 hostMidGame).
    qdec.
  - apply (proj2 (proj2 (proj2 point_scored)) canvasW canvasH 0.7
             hostBallRight); qdec.
Defined.

(** C3 as stated fails on the host of the networked game: after the point
    the ball is in flight again, with velocity 5 along the court. *)
Lemma networked_point_relaunches :
  let s' := Net.simulateBall canvasW canvasH 0.7 hostMidGame in
  Net.rightScore s' = S (Net.rightScore hostMidGame)
  /\ Net.b_dx (Net.ball s') == 5
  /\ ~ Net.b_dx (Net.ball s') == 0.
Proof.
  cbv zeta. repeat split; qdec.
Qed.

(** C4 (as amended).  Single-player: a hit at the player's paddle leaves
    the ball moving towards the AI, a hit at the AI's paddle towards the
    player, whatever its direction was; after the frame the speed along
    the court is exactly 1.03 times the old one clamped to
    [minSpeed, maxSpeed], so it grows strictly while below the cap and
    equals the cap otherwise.
    Networked: a paddle is only hit by a ball moving towards it; the
    velocity along the court changes sign and its size is multiplied by
    1.05 while it was below 15, and is kept otherwise. *)
Theorem paddle_hit_response :
  (forall r s,
      Single.ballInPlay s = true ->
      Single.hitsPlayer (Single.integrate s) = true ->
      ~ Single.ballSpeed_x s == 0 ->
      let v := Single.ballSpeed_x s in
      let w := Single.ballSpeed_x (Single.updateBall r s) in
      0 < w /\ w <= Single.maxSpeed
      /\ (Qabs v < Single.maxSpeed -> Qabs v < w)
      /\ (Single.maxSpeed <= Qabs v -> w == Single.maxSpeed)
      /\ w == clamp Single.minSpeed Single.maxSpeed (Qabs v * 1.03))
  /\ (forall r s,
      Single.ballInPlay s = true ->
      Single.hitsAI (Single.integrate s) = true ->
      ~ Single.ballSpeed_x s == 0 ->
      let v := Single.ballSpeed_x s in
      let w := Single.ballSpeed_x (Single.updateBall r s) in
      w < 0 /\ - Single.maxSpeed <= w
      /\ (Qabs v < Single.maxSpeed -> Qabs v < - w)
      /\ (Single.maxSpeed <= Qabs v -> w == - Single.maxSpeed)
      /\ w == - clamp Single.minSpeed Single.maxSpeed (Qabs v * 1.03))
  /\ (forall p b,
      Net.hitsLeft p b = true ->
      let v := Net.b_dx b in
      let w := Net.b_dx (Net.leftCollision p b) in
      v < 0 /\ 0 < w
      /\ (Qabs v < Net.speedGate -> Qabs w == Qabs v * Net.speedUp)
      /\ (Net.speedGate <= Qabs v -> Qabs w == Qabs v))
  /\ (forall p b,
      Net.hitsRight p b = true ->
      let v := Net.b_dx b in
      let w := Net.b_dx (Net.rightCollision p b) in
      0 < v /\ w < 0
      /\ (Qabs v < Net.speedGate -> Qabs w == Qabs v * Net.speedUp)
      /\ (Net.speedGate <= Qabs v -> Qabs w == Qabs v)).
Proof.
  split; [ | split; [ | split ] ].
  - intros r s Hplay Hhit Hnz. cbv zeta.
    rewrite SingleFacts.hit_at_player by assumption.
    destruct (SingleFacts.sped_up_forward _ Hnz) as (H1 & H2 & H3 & H4).
    split; [ exact H1 | split; [ exact H2 | split; [ exact H3 | ] ] ].
    split; [ exact H4 | now apply SingleFacts.normalizeX_forward ].
  - intros r s Hplay Hhit Hnz. cbv zeta.
    rewrite SingleFacts.hit_at_ai by assumption.
    destruct (SingleFacts.sped_up_backward _ Hnz) as (H1 & H2 & H3 & H4).
    split; [ exact H1 | split; [ exact H2 | split; [ exact H3 | ] ] ].
    split; [ exact H4 | now apply SingleFacts.normalizeX_backward ].
  - intros p b Hhit. cbv zeta. unfold Net.leftCollision. rewrite Hhit.
    destruct (NetFacts.hitsLeft_overlap _ _ Hhit) as (_ & _ & _ & Hv).
    destruct (NetFacts.bounce_turns p b) as (Hneg & _ & Hup & Hkeep).
    auto.
  - intros p b Hhit. cbv zeta. unfold Net.rightCollision. rewrite Hhit.
    destruct (NetFacts.hitsRight_overlap _ _ Hhit) as (_ & _ & _ & Hv).
    destruct (NetFacts.bounce_turns p b) as (_ & Hpos & Hup & Hkeep).
    auto.
Qed.

Lemma paddle_hit_response_witness :
  0 < Single.ballSpeed_x (Single.updateBall 0.5 arrivingAtPlayer)
  /\ Single.ballSpeed_x (Single.updateBall 0.5 arrivingAtAI) < 0
  /\ 0 < Net.b_dx (Net.leftCollision (Net.mkPaddle 50 250 0 8)
                     ballAtLeftPaddle)
  /\ Net.b_dx (Net.rightCollision (Net.mkPaddle 735 250 0 8)
                 ballAtRightPaddle) < 0.
Proof.
  split; [ | split; [ | split ] ].
  - apply (proj1 paddle_hit_response 0.5 arrivingAtPlayer); qdec.
  - apply (proj1 (proj2 paddle_hit_response) 0.5 arrivingAtAI); qdec.
  - apply (proj1 (proj2 (proj2 paddle_hit_response))
             (Net.mkPaddle 50 250 0 8) ballAtLeftPaddle). qdec.
  - apply (proj2 (proj2 (proj2 paddle_hit_response))
             (Net.mkPaddle 735 250 0 8) ballAtRightPaddle). qdec.
Defined.

(** C4 as stated fails in the single-player game: one frame after a hit
    the ball is still inside the paddle's band and within the hitbox, so
    it is hit again; it was moving away from the paddle and keeps doing
    so, its direction does not flip. *)
Lemma second_hit_keeps_direction :
  let s1 := Single.updateBall 0.5 arrivingAtPlayer in
  Single.hitsPlayer (Single.integrate arrivingAtPlayer) = true
  /\ Single.ballInPlay s1 = true
  /\ Single.hitsPlayer (Single.integrate s1) = true
  /\ 0 < Single.ballSpeed_x s1
  /\ 0 < Single.ballSpeed_x (Single.updateBall 0.5 s1).
Proof.
  cbv zeta. repeat split; qdec.
Qed.

(** C5 (as amended).  Single-player: in every frame in which the ball in
    play, once moved, is beyond a side wall (|z| > 5) and no point is
    scored, [updateBall] leaves the velocity across at the normalisation
    (cap and drag) of the damped reflection [-0.9 * vz] plus the random
    term [(r - 0.5) * 0.05], added after the reflection, where [vz] is the
    velocity across after the paddle blocks of the frame, the old one when
    no paddle is hit; the reflection has the opposite sign and, for a
    non-zero [vz], a strictly smaller size; for [0 <= r < 1] the random
    term is at most 0.025 in size, so the velocity across after the frame
    has the opposite sign whenever [0.9 * |vz|] exceeds 0.025, and its
    size is at most [(0.9 * |vz| + 0.025) * 0.98].
    Networked: in every step of the host in which the moved ball is at the
    top or bottom wall, no paddle is hit and no point is scored, the
    velocity across is exactly negated and the velocity along the court
    is kept: no damping and no random term. *)
Theorem wall_bounce_response :
  (forall r s,
      Single.ballInPlay s = true ->
      Single.beyondWall (Single.integrate s) = true ->
      -10 <= Single.ball_x s + Single.ballSpeed_x s <= 10 ->
      let v := Single.ballSpeed_z (Single.afterPaddles s) in
      let w := Single.ballSpeed_z (Single.updateBall r s) in
      w = Single.normalizeZ (Single.wallReflect v + Single.wallNoise r)
      /\ (0 <= r < 1 ->
          Qabs w <= (0.9 * Qabs v + 0.025) * 0.98
          /\ (0.025 < 0.9 * v -> w < 0)
          /\ (0.9 * v < -0.025 -> 0 < w)))
  /\ (forall s,
      Single.hitsPlayer (Single.integrate s) = false ->
      Single.hitsAI (Single.integrate s) = false ->
      Single.ballSpeed_z (Single.afterPaddles s) = Single.ballSpeed_z s)
  /\ (forall v,
      Qabs (Single.wallReflect v) == 0.9 * Qabs v
      /\ (0 < v -> Single.wallReflect v < 0)
      /\ (v < 0 -> 0 < Single.wallReflect v)
      /\ (~ v == 0 -> Qabs (Single.wallReflect v) < Qabs v))
  /\ (forall r, 0 <= r < 1 -> Qabs (Single.wallNoise r) <= 0.025)
  /\ (forall w h r s,
      Net.atWall h (Net.moveBall (Net.ball s)) = true ->
      Net.hitsLeft (Net.leftPaddle s)
        (Net.wallCollision h (Net.moveBall (Net.ball s))) = false ->
      Net.hitsRight (Net.rightPaddle s)
        (Net.wallCollision h (Net.moveBall (Net.ball s))) = false ->
      0 <= Net.b_x (Net.ball s) + Net.b_dx (Net.ball s) <= w ->
      Net.b_dy (Net.ball (Net.simulateBall w h r s)) = - Net.b_dy (Net.ball s)
      /\ Net.b_dx (Net.ball (Net.simulateBall w h r s))
         = Net.b_dx (Net.ball s)).
Proof.
  split; [ | split; [ | split; [ | split ] ] ].
  - intros r s Hplay Hwall Hin. cbv zeta.
    rewrite (SingleFacts.wall_frame r s Hplay Hwall Hin).
    split; [ reflexivity | ]. apply SingleFacts.wall_frame_sign.
  - intros s Hp Ha. now rewrite (SingleFacts.afterPaddles_no_hit s Hp Ha).
  - apply SingleFacts.wallReflect_damps.
  - apply SingleFacts.wallNoise_bounded.
  - intros w h r s. apply (NetFacts.wall_step w h r s).
Qed.

Lemma wall_bounce_response_witness :
  Single.ballSpeed_z (Single.updateBall 0.7 beyondSideWall)
  = Single.normalizeZ (Single.wallReflect 0.1 + Single.wallNoise 0.7)
  /\ Single.ballSpeed_z (Single.updateBall 0.7 beyondSideWall) < 0
  /\ Single.ballSpeed_z (Single.afterPaddles beyondSideWall) = 0.1
  /\ Qabs (Single.wallReflect 0.1) < Qabs 0.1
  /\ Qabs (Single.wallNoise 0.7) <= 0.025
  /\ Net.b_dy (Net.ball (Net.simulateBall canvasW canvasH 0.7 hostAtWall))
     = - Net.b_dy (Net.ball hostAtWall).
Proof.
  destruct (proj1 wall_bounce_response 0.7 beyondSideWall)
    as (H1 & H2); [ reflexivity | reflexivity | split; qdec | ].
  destruct H2 as (_ & H2 & _); [ split; qdec | ].
  split; [ exact H1 | ].
  split; [ apply H2; qdec | ].
  split; [ apply (proj1 (proj2 wall_bounce_response) beyondSideWall);
           reflexivity | ].
  split; [ apply (proj1 (proj2 (proj2 wall_bounce_response)) 0.1); qdec | ].
  split; [ apply (proj1 (proj2 (proj2 (proj2 wall_bounce_response))) 0.7);
           split; qdec | ].
  apply (proj2 (proj2 (proj2 (proj2 wall_bounce_response)))
           canvasW canvasH 0.7 hostAtWall);
    [ reflexivity | reflexivity | reflexivity | split; qdec ].
Defined.

(** C5 as stated fails in the networked game: in a step of the host with
    the moved ball at the top wall, no paddle hit and no point, the ball
    comes back with the same speed across, not a smaller one. *)
Lemma networked_wall_keeps_speed :
  let s' := Net.simulateBall canvasW canvasH 0.7 hostAtWall in
  Net.atWall canvasH (Net.moveBall (Net.ball hostAtWall)) = true
  /\ Net.hitsLeft (Net.leftPaddle hostAtWall)
       (Net.wallCollision canvasH (Net.moveBall (Net.ball hostAtWall))) = false
  /\ Net.hitsRight (Net.rightPaddle hostAtWall)
       (Net.wallCollision canvasH (Net.moveBall (Net.ball hostAtWall))) = false
  /\ Net.leftScore s' = Net.leftScore hostAtWall
  /\ Net.rightScore s' = Net.rightScore hostAtWall
  /\ Net.b_dy (Net.ball s') == 5
  /\ Qabs (Net.b_dy (Net.ball s')) == Qabs (Net.b_dy (Net.ball hostAtWall))
  /\ ~ Qabs (Net.b_dy (Net.ball s')) < Qabs (Net.b_dy (Net.ball hostAtWall)).
Proof.
  cbv zeta. repeat split; qdec.
Qed.

(** C6.  When the ball moves towards the AI side (positive velocity along
    the court) the target the AI computes before smoothing is
    clamp(ballLateral + transverseVelocity * (distance / speed), -4, 4),
    with distance the absolute distance along the court between the AI's
    paddle and the ball; [updatePaddles] then blends it into the smoothed
    target with weight 0.2. *)
Theorem ai_raw_target :
  (forall bx bz vx vz,
      0 < vx ->
      Single.aiTarget bx bz vx vz ==
      clamp Single.courtMin Single.courtMax
        (bz + vz * (Qabs (Single.paddle2_x - bx) / vx)))
  /\ (forall keys r s,
      Single.ballInPlay s = true ->
      0 < Single.ballSpeed_x s ->
      Single.lastAiTarget (Single.updatePaddles keys r s) ==
      Single.lastAiTarget s * 0.8
      + clamp Single.courtMin Single.courtMax
          (Single.ball_z s
           + Single.ballSpeed_z s
             * (Qabs (Single.paddle2_x - Single.ball_x s)
                / Single.ballSpeed_x s)) * 0.2).
Proof.
  split.
  - apply SingleFacts.aiTarget_towards.
  - intros keys r s Hplay Hvx.
    rewrite SingleFacts.updatePaddles_smooths, Hplay. cbn [negb].
    rewrite (SingleFacts.aiTarget_towards _ _ _ _ Hvx). reflexivity.
Qed.

Lemma ai_raw_target_witness :
  Single.aiTarget 1 1 0.2 0.1 ==
  clamp Single.courtMin Single.courtMax
    (1 + 0.1 * (Qabs (Single.paddle2_x - 1) / 0.2))
  /\ Single.lastAiTarget (Single.updatePaddles Single.noKeys 0.5 flyingToAI)
     == 0.8.
Proof.
  split.
  - apply (proj1 ai_raw_target 1 1 0.2 0.1). qdec.
  - rewrite (proj2 ai_raw_target Single.noKeys 0.5 flyingToAI);
      [ qdec | reflexivity | qdec ].
Defined.

(** C7 (as amended).  In the networked game only the host simulates the
    ball: a frame on the guest's side leaves ball and scores untouched,
    while a frame on the host's side sets them by [moveBall] and
    [checkCollisions].  A ball-state message that reaches the guest over
    the data channel, or through the server while the direct channel is
    not in use ([useWebRTC] false or the peer not connected), overwrites
    the guest's ball with the message's ball and each score with the
    message's score (a score absent from the message keeps the local
    one).  A ball-state message from the server is dropped while the
    direct channel is in use.  The host drops every received ball
    state. *)
Theorem ball_authority :
  (forall w h r s,
      Net.isHost s = false ->
      let s' := fst (Net.gameLoop w h r s) in
      Net.ball s' = Net.ball s
      /\ Net.leftScore s' = Net.leftScore s
      /\ Net.rightScore s' = Net.rightScore s)
  /\ (forall w h r s,
      Net.gameActive s = true -> Net.isHost s = true ->
      let s' := fst (Net.gameLoop w h r s) in
      let moved := fst (Net.movePaddles h s) in
      Net.ball s' = Net.ball (Net.simulateBall w h r moved)
      /\ Net.leftScore s' = Net.leftScore (Net.simulateBall w h r moved)
      /\ Net.rightScore s' = Net.rightScore (Net.simulateBall w h r moved))
  /\ (forall w h b l r s,
      Net.isHost s = false ->
      let s' := fst (Net.handle w h (Net.PeerData (Net.ballUpdate b l r)) s) in
      Net.ball s' = b
      /\ Net.leftScore s' = match l with Some v => v | None => Net.leftScore s end
      /\ Net.rightScore s' =
         match r with Some v => v | None => Net.rightScore s end)
  /\ (forall w h b l r s,
      Net.isHost s = false -> Net.relayInUse s = true ->
      let s' := fst (Net.handle w h (Net.OnBallUpdate b l r) s) in
      Net.ball s' = b
      /\ Net.leftScore s' = match l with Some v => v | None => Net.leftScore s end
      /\ Net.rightScore s' =
         match r with Some v => v | None => Net.rightScore s end)
  /\ (forall w h b l r s,
      Net.relayInUse s = false ->
      Net.handle w h (Net.OnBallUpdate b l r) s = (s, []))
  /\ (forall w h b l r s,
      Net.isHost s = true ->
      Net.handle w h (Net.PeerData (Net.ballUpdate b l r)) s = (s, [])
      /\ Net.handle w h (Net.OnBallUpdate b l r) s = (s, [])).
Proof.
  repeat match goal with |- _ /\ _ => split end.
  - apply NetFacts.guest_frame.
  - apply NetFacts.host_frame.
  - apply NetFacts.guest_takes_direct.
  - apply NetFacts.guest_takes_relayed.
  - apply NetFacts.relayed_ball_dropped.
  - apply NetFacts.host_keeps_ball.
Qed.

Lemma ball_authority_witness :
  Net.ball (fst (Net.gameLoop canvasW canvasH 0.7 guestMidGame))
  = Net.ball guestMidGame
  /\ Net.rightScore (fst (Net.gameLoop canvasW canvasH 0.7 hostMidGame))
     = Net.rightScore
         (Net.simulateBall canvasW canvasH 0.7
            (fst (Net.movePaddles canvasH hostMidGame)))
  /\ Net.ball (fst (Net.handle canvasW canvasH
                      (Net.PeerData (Net.ballUpdate sentBall (Some 4%nat)
                                       (Some 1%nat))) guestMidGame))
     = sentBall
  /\ Net.ball (fst (Net.handle canvasW canvasH
                      (Net.OnBallUpdate sentBall (Some 4%nat) (Some 1%nat))
                      guestRelayed))
     = sentBall
  /\ Net.handle canvasW canvasH
       (Net.OnBallUpdate sentBall (Some 4%nat) (Some 1%nat)) guestMidGame
     = (guestMidGame, [])
  /\ Net.handle canvasW canvasH
       (Net.OnBallUpdate sentBall (Some 4%nat) (Some 1%nat)) hostMidGame
     = (hostMidGame, []).
Proof.
  repeat match goal with |- _ /\ _ => split end.
  - apply (proj1 ball_authority canvasW canvasH 0.7 guestMidGame).
    reflexivity.
  - apply (proj1 (proj2 ball_authority) canvasW canvasH 0.7 hostMidGame);
      reflexivity.
  - apply (proj1 (proj2 (proj2 ball_authority)) canvasW canvasH sentBall
             (Some 4%nat) (Some 1%nat) guestMidGame).
    reflexivity.
  - apply (proj1 (proj2 (proj2 (proj2 ball_authority))) canvasW canvasH
             sentBall (Some 4%nat) (Some 1%nat) guestRelayed);
      reflexivity.
  - apply (proj1 (proj2 (proj2 (proj2 (proj2 ball_authority)))) canvasW
             canvasH sentBall (Some 4%nat) (Some 1%nat) guestMidGame).
    reflexivity.
  - apply (proj2 (proj2 (proj2 (proj2 (proj2 ball_authority)))) canvasW
             canvasH sentBall (Some 4%nat) (Some 1%nat) hostMidGame).
    reflexivity.
Defined.

(** C7 as stated fails for the relayed channel: the guest, with its data
    channel connected, receives a ball state through the server and keeps
    its own ball and scores. *)
Lemma relayed_ball_ignored_while_direct :
  let s' := fst (Net.handle canvasW canvasH
                   (Net.OnBallUpdate sentBall (Some 4%nat) (Some 1%nat))
                   guestMidGame) in
  Net.isHost guestMidGame = false
  /\ Net.ball s' = Net.ball guestMidGame
  /\ Net.ball s' <> sentBall
  /\ Net.leftScore s' = 3%nat.
Proof.
  cbv zeta. repeat split; try reflexivity.
  vm_compute. intro H. discriminate H.
Qed.

(** C8 (as amended).  Once a data-channel error, a close, a failed
    [peer.signal] or a failed peer construction has set [useWebRTC] to
    false, no later handler run sets it back and none builds a new peer;
    the event itself leaves [gameActive] as it was.  From then on every
    message sent by the frame update, by the start and the end of a game
    and by the handlers of the server's events goes through the server;
    what can still go over the data channel is what the channel's own
    two handlers send (the request on connect, the answer to a direct
    request).  After an error or a close the peer is marked disconnected
    as well, and then nothing at all is sent directly unless a connect
    event arrives later. *)
Theorem fallback_is_permanent :
  (forall w h e s,
      Net.fallsBack e s = true ->
      Net.useWebRTC (fst (Net.handle w h e s)) = false
      /\ Net.gameActive (fst (Net.handle w h e s)) = Net.gameActive s)
  /\ (forall w h evs s,
      Net.useWebRTC s = false ->
      Net.useWebRTC (fst (Net.run w h evs s)) = false
      /\ forall e o, In (e, o) (snd (Net.run w h evs s)) ->
           Net.isNewPeer o = false
           /\ (Net.isDirect o = true -> Net.isPeerEvent e = true))
  /\ (forall w h evs s,
      Net.useWebRTC s = false -> Net.peerConnected s = false ->
      ~ In Net.PeerConnect evs ->
      forall e o, In (e, o) (snd (Net.run w h evs s)) ->
        Net.isDirect o = false).
Proof.
  split; [ | split ].
  - intros w h. apply NetFacts.fallback_step.
  - intros w h. apply NetFacts.run_after_fallback.
  - intros w h. apply NetFacts.run_disconnected.
Qed.

Lemma fallback_is_permanent_witness :
  Net.gameActive (fst (Net.handle canvasW canvasH Net.PeerError hostMidGame))
  = true
  /\ Net.useWebRTC
       (fst (Net.run canvasW canvasH [Net.Frame 0.7; Net.PeerConnect]
               guestRelayed)) = false
  /\ Net.isDirect
       (Net.Relay (Net.paddleMoveE (Some "AB12") 250)) = false.
Proof.
  split; [ | split ].
  - apply (proj1 fallback_is_permanent canvasW canvasH Net.PeerError
             hostMidGame). reflexivity.
  - apply (proj1 (proj2 fallback_is_permanent) canvasW canvasH
             [Net.Frame 0.7; Net.PeerConnect] guestRelayed). reflexivity.
  - apply (proj2 (proj2 fallback_is_permanent) canvasW canvasH
             [Net.Frame 0.7] guestRelayed eq_refl eq_refl)
      with (e := Net.Frame 0.7).
    + cbn. intros [H | []]. discriminate H.
    + vm_compute. left. reflexivity.
Defined.

(** C8 as stated fails after a failed [peer.signal]: the handler clears
    [useWebRTC] but leaves the peer connected, and when the guest's
    request for the ball then arrives over the data channel the host
    answers with the ball state on the data channel. *)
Lemma direct_reply_after_fallback :
  let s1 := fst (Net.handle canvasW canvasH (Net.OnWebrtcSignal true)
                   hostMidGame) in
  Net.fallsBack (Net.OnWebrtcSignal true) hostMidGame = true
  /\ Net.useWebRTC s1 = false
  /\ Net.gameActive s1 = true
  /\ snd (Net.handle canvasW canvasH (Net.PeerData Net.requestBallUpdate) s1)
     = [Net.Direct (Net.ballUpdate (Net.ball hostMidGame) (Some 3%nat)
                      (Some 2%nat))].
Proof.
  cbv zeta. repeat split; reflexivity.
Qed.

(** C9, at the failing input.  One run of the player-left handler on a
    running game shows the game-over screen with the notice
    "Opponent left the game" and releases the peer, as the claim says.
    The handler is installed twice, so the same message runs it a second
    time: that run finds the game already over, takes the other branch
    and goes back to the menu, with the room left and the scores
    cleared. *)
Theorem player_left_ends_in_menu :
  let once := fst (Net.playerLeftHandler hostMidGame) in
  let twice := fst (Net.playerLeftArrives hostMidGame) in
  Net.gameActive hostMidGame = true
  /\ Net.screen once = Net.GameOverScreen
  /\ Net.winnerDisplay once = "Opponent left the game"
  /\ Net.peer once = false /\ Net.peerConnected once = false
  /\ Net.screen twice = Net.MenuScreen
  /\ Net.currentRoomCode twice = None
  /\ Net.leftScore twice = 0%nat /\ Net.rightScore twice = 0%nat.
Proof.
  cbv zeta. repeat split; reflexivity.
Qed.

(** C10.  In the single-player game the player always serves.  After a
    point for either side the ball is docked at x = -8 at the player's
    paddle, not in play; while it waits it follows the player's paddle
    and stays out of play in every frame without the space key; the space
    key puts it in play with velocity 0.2 along the court, towards the AI
    side, from the player's paddle. *)
Theorem player_always_serves :
  (forall r s,
      Single.ballInPlay s = true ->
      10 < Single.ball_x s + Single.ballSpeed_x s
      \/ Single.ball_x s + Single.ballSpeed_x s < -10 ->
      let s' := Single.updateBall r s in
      Single.ballInPlay s' = false
      /\ Single.ball_x s' = -8 /\ Single.ball_z s' = Single.paddle1_z s')
  /\ (forall keys rl rw s,
      Single.ballInPlay s = false -> keys " " = false ->
      let s' := Single.animate keys rl rw s in
      Single.ballInPlay s' = false
      /\ Single.ball_z s' = Single.paddle1_z s'
      /\ Single.ball_x s' = Single.ball_x s)
  /\ (forall keys r s,
      Single.ballInPlay s = false -> keys " " = true ->
      let s' := Single.updatePaddles keys r s in
      Single.ballInPlay s' = true
      /\ Single.ballSpeed_x s' = Single.serveSpeed
      /\ 0 < Single.ballSpeed_x s'
      /\ Single.ball_x s' = Single.ball_x s
      /\ Single.ball_z s' = Single.paddle1_z s').
Proof.
  split; [ | split ].
  - intros r s Hplay [Hout | Hout]; cbv zeta.
    + destruct (SingleFacts.point_for_player r s Hplay Hout)
        as (_ & _ & Hp & _ & _ & Hx & Hz).
      repeat split; try assumption. rewrite Hz.
      symmetry. apply SingleFacts.updateBall_paddles.
    + destruct (SingleFacts.point_for_ai r s Hplay Hout)
        as (_ & _ & Hp & _ & _ & Hx & Hz).
      repeat split; try assumption. rewrite Hz.
      symmetry. apply SingleFacts.updateBall_paddles.
  - intros keys rl rw s Hp Hk.
    destruct (SingleFacts.docked_follows keys rl rw s Hp Hk)
      as (H1 & H2 & H3 & _). auto.
  - intros keys r s Hp Hk.
    destruct (SingleFacts.serve_by_player keys r s Hp Hk)
      as (H1 & H2 & H3 & H4).
    cbv zeta. rewrite H2. repeat split; assumption.
Qed.

Lemma player_always_serves_witness :
  Single.ball_x (Single.updateBall 0.5 lastFrameForAI) = -8
  /\ Single.ballInPlay
       (Single.animate (Single.holding "a") 0.5 0.5 waitingForServe) = false
  /\ Single.ballSpeed_x
       (Single.updatePaddles (Single.holding " ") 0.5 waitingForServe)
     = Single.serveSpeed.
Proof.
  split; [ | split ].
  - apply (proj1 player_always_serves 0.5 lastFrameForAI);
      [ reflexivity | right; qdec ].
  - apply (proj1 (proj2 player_always_serves) (Single.holding "a") 0.5 0.5
             waitingForServe); reflexivity.
  - apply (proj2 (proj2 player_always_serves) (Single.holding " ") 0.5
             waitingForServe); reflexivity.
Defined.

(** * Further properties of the code *)

(** ** Single-player: paddles, ball and scores over whole sessions *)

Module SingleMore.
Import Single SingleFacts.

(** X1.  Whatever the state and the keys, after a frame the AI's paddle is
    inside the court bounds [-4, 4]. *)
Theorem ai_paddle_stays_in_court (keys : Keys) (rl rw : Q) (s : State) :
  within courtMin courtMax (paddle2_z (animate keys rl rw s)).
Proof.
  unfold animate.
  destruct (updateBall_paddles rw (updatePaddles keys rl s)) as (_ & -> & _).
  apply updatePaddles_paddle2.
Qed.

Lemma animate_paddle1 (keys : Keys) (rl rw : Q) (s : State) :
  paddle1_z (animate keys rl rw s) = movePlayer keys (paddle1_z s).
Proof.
  unfold animate.
  destruct (updateBall_paddles rw (updatePaddles keys rl s)) as (-> & _).
  apply updatePaddles_paddle1.
Qed.

Lemma movePlayer_step (keys : Keys) (z : Q) :
  Qabs (movePlayer keys z - z) <= paddleSpeed.
Proof.
  unfold movePlayer. unfold_consts.
  destruct (keys "a" || keys "arrowleft"), (keys "d" || keys "arrowright");
    cbn [andb]; split_tests; split_abs; lra.
Qed.

(** X2.  In every session started by the constructor the player's paddle
    stays strictly between -4.3 and 4.3: it can pass a bound of the court
    by less than one step of 0.3. *)
Theorem player_paddle_overshoot_bounded (inputs : list Input) :
  courtMin - paddleSpeed < paddle1_z (play inputs initial)
                         < courtMax + paddleSpeed.
Proof.
  assert (H : forall s,
             courtMin - paddleSpeed < paddle1_z s < courtMax + paddleSpeed ->
             courtMin - paddleSpeed < paddle1_z (play inputs s)
                                    < courtMax + paddleSpeed).
  { induction inputs as [| i rest IH]; intros s Hs; cbn [play].
    - exact Hs.
    - apply IH. rewrite animate_paddle1. now apply movePlayer_overshoot. }
  apply H. split; vm_compute; reflexivity.
Qed.

(** X3.  The AI's paddle, from a position inside the court: it moves by at
    most 0.15 per frame, does not move when the smoothed target is within
    0.1 of it, and otherwise ends between its old position and the
    target, never beyond the target. *)
Theorem ai_paddle_step (target z : Q) :
  within courtMin courtMax z ->
  Qabs (moveAI target z - z) <= aiSpeed
  /\ (Qabs (target - z) <= 0.1 -> moveAI target z == z)
  /\ (z <= target -> z <= moveAI target z <= target)
  /\ (target <= z -> target <= moveAI target z <= z).
Proof.
  unfold within, moveAI, Qsign. unfold_consts. intros [Hlo Hhi]. cbv zeta.
  repeat split; intros; split_tests; split_abs; lra.
Qed.

Lemma scoring_docks (s : State) :
  scoring s = s \/
  (ballInPlay (scoring s) = false /\ ball_x (scoring s) = -8
   /\ ball_z (scoring s) = paddle1_z (scoring s)
   /\ ballSpeed_x (scoring s) = 0 /\ ballSpeed_z (scoring s) = 0).
Proof.
  unfold scoring.
  destruct (Qltb 10 (ball_x s)); [ right; cbn; auto | ].
  destruct (Qltb (ball_x s) (-10)); [ right; cbn; auto | left; reflexivity ].
Qed.

Lemma animate_docked (keys : Keys) (rl rw : Q) (s : State) :
  docked s -> docked (animate keys rl rw s).
Proof.
  intros Hd. destruct (ballInPlay s) eqn:Hplay.
  - (* a rally: the ball is out of play afterwards only by a point *)
    unfold animate, docked.
    assert (Hp : ballInPlay (updatePaddles keys rl s) = true).
    { destruct (updatePaddles_no_serve keys rl s) as (-> & _); [ | exact Hplay ].
      rewrite Hplay. apply andb_false_r. }
    unfold updateBall. rewrite Hp. cbn [negb].
    fold (afterPaddles (updatePaddles keys rl s)).
    destruct (scoring_docks
                (normalize (courtBoundaries rw
                   (afterPaddles (updatePaddles keys rl s)))))
      as [E | (H0 & H1 & H2 & H3 & H4)].
    + rewrite E, blocks_keep_inPlay, Hp. discriminate.
    + auto.
  - destruct (Hd Hplay) as (Hx & Hz & Hvx & Hvz).
    destruct (keys " ") eqn:Hk.
    + (* the serve *)
      unfold animate, docked.
      destruct (serve_by_player keys rl s Hplay Hk) as (Hp & Hv & Hbx & Hbz).
      unfold updateBall. rewrite Hp. cbn [negb].
      fold (afterPaddles (updatePaddles keys rl s)).
      destruct (scoring_docks
                  (normalize (courtBoundaries rw
                     (afterPaddles (updatePaddles keys rl s)))))
        as [E | (H0 & H1 & H2 & H3 & H4)].
      * rewrite E, blocks_keep_inPlay, Hp. discriminate.
      * auto.
    + destruct (docked_follows keys rl rw s Hplay Hk) as (Hp & Hbz & Hbx & _).
      intros _. rewrite Hbx, Hbz.
      unfold animate. rewrite updateBall_docked.
      * destruct (updatePaddles_no_serve keys rl s) as (_ & -> & ->);
          [ rewrite Hk; reflexivity | ]. auto.
      * destruct (updatePaddles_no_serve keys rl s) as (-> & _);
          [ rewrite Hk; reflexivity | exact Hplay ].
Qed.

(** X4.  In every session started by the constructor, a ball that is not
    in play sits at x = -8, at the player's paddle across the court, with
    zero velocity. *)
Theorem waiting_ball_is_docked (inputs : list Input) :
  let s := play inputs initial in
  ballInPlay s = false ->
  ball_x s = -8 /\ ball_z s = paddle1_z s
  /\ ballSpeed_x s = 0 /\ ballSpeed_z s = 0.
Proof.
  assert (H : forall s, docked s -> docked (play inputs s)).
  { induction inputs as [| i rest IH]; intros s Hs; cbn [play].
    - exact Hs.
    - apply IH. now apply animate_docked. }
  apply (H initial). intros _. cbn. auto.
Qed.

Lemma updatePaddles_scores (keys : Keys) (r : Q) (s : State) :
  score_player (updatePaddles keys r s) = score_player s
  /\ score_ai (updatePaddles keys r s) = score_ai s.
Proof.
  unfold updatePaddles, launchBall. fields. each_branch; auto.
Qed.

Lemma updateBall_scores (r : Q) (s : State) :
  let s' := updateBall r s in
  (score_player s' = score_player s /\ score_ai s' = score_ai s)
  \/ (score_player s' = S (score_player s) /\ score_ai s' = score_ai s
      /\ ballInPlay s' = false)
  \/ (score_ai s' = S (score_ai s) /\ score_player s' = score_player s
      /\ ballInPlay s' = false).
Proof.
  cbv zeta. unfold updateBall. destruct (ballInPlay s); cbn [negb]; [ | auto ].
  fold (afterPaddles s).
  destruct (blocks_frame r s) as (_ & _ & _ & _ & Hp & Ha & _).
  cbv zeta in *.
  set (s1 := normalize (courtBoundaries r (afterPaddles s))) in *.
  clearbody s1. unfold scoring.
  each_branch; rewrite ?Hp, ?Ha; auto.
Qed.

(** X5.  A frame awards at most one point, to one side only, and in a frame
    with a point the ball is out of play afterwards. *)
Theorem one_point_per_frame (keys : Keys) (rl rw : Q) (s : State) :
  let s' := animate keys rl rw s in
  (score_player s' = score_player s /\ score_ai s' = score_ai s)
  \/ (score_player s' = S (score_player s) /\ score_ai s' = score_ai s
      /\ ballInPlay s' = false)
  \/ (score_ai s' = S (score_ai s) /\ score_player s' = score_player s
      /\ ballInPlay s' = false).
Proof.
  cbv zeta. unfold animate.
  destruct (updatePaddles_scores keys rl s) as [Hsp Hsa].
  pose proof (updateBall_scores rw (updatePaddles keys rl s)) as H.
  cbv zeta in H. rewrite Hsp, Hsa in H. exact H.
Qed.

(** X6.  In every session started by the constructor a ball in play cannot
    jump over a paddle's band: from in front of the band it is, after
    moving, either still in front of it or inside it, because the speed
    cap 0.35 is below the width 0.4 of the band. *)
Theorem ball_cannot_skip_a_paddle_band (inputs : list Input) :
  let s := play inputs initial in
  ballInPlay s = true ->
  (-8.8 < ball_x s -> -9.2 <= ball_x (integrate s))
  /\ (ball_x s < 8.8 -> ball_x (integrate s) <= 9.2).
Proof.
  cbv zeta. intros Hplay.
  pose proof (play_speeds inputs initial initial_speeds) as H.
  unfold speedsInRange in H. rewrite Hplay in H.
  destruct H as [[_ Hv] _]. unfold_consts. fields.
  split; intros Hx; split_abs; lra.
Qed.

(** X7.  While the ball is in play [updatePaddles] leaves it alone whatever
    keys are down: the space key does not serve again, and position,
    velocity and scores are unchanged. *)
Theorem paddle_update_leaves_rally_alone (keys : Keys) (r : Q) (s : State) :
  ballInPlay s = true ->
  let s' := updatePaddles keys r s in
  ballInPlay s' = true
  /\ ball_x s' = ball_x s /\ ball_z s' = ball_z s
  /\ ballSpeed_x s' = ballSpeed_x s /\ ballSpeed_z s' = ballSpeed_z s
  /\ score_player s' = score_player s /\ score_ai s' = score_ai s.
Proof.
  intros Hplay. unfold updatePaddles. fields. rewrite Hplay.
  rewrite andb_false_r. cbn [negb]. fields. auto 10.
Qed.

(** X8.  A hit at the player's paddle sets the velocity across the court to
    0.375 times the offset of the ball from the paddle's centre, which is
    below 0.3 in size; after the speed normalisation of the same frame it
    is at most 0.21 * 0.98. *)
Theorem hit_spin_follows_offset (s : State) :
  hitsPlayer s = true ->
  let off := ball_z s - paddle1_z s in
  let vz := ballSpeed_z (playerCollision s) in
  vz == off * 0.375
  /\ Qabs vz < 0.3
  /\ Qabs (normalizeZ vz) <= maxVerticalSpeed * 0.98.
Proof.
  intros Hhit. destruct (hitsPlayer_band s Hhit) as [_ Hoff].
  unfold playerCollision. rewrite Hhit. fields. cbv zeta.
  unfold_consts.
  assert (E : (ball_z s - paddle1_z s) / 0.8 * 0.3
              == (ball_z s - paddle1_z s) * 0.375) by field.
  set (vz := (ball_z s - paddle1_z s) / 0.8 * 0.3) in *. clearbody vz.
  split; [ exact E | ]. split.
  - split_abs; lra.
  - unfold normalizeZ, Qsign. unfold_consts. split_tests; split_abs; lra.
Qed.

(** *** Examples *)

Lemma ai_paddle_step_witness :
  Qabs (moveAI 1 0 - 0) <= aiSpeed
  /\ moveAI 0.05 0 == 0
  /\ 0 <= moveAI 1 0 <= 1
  /\ -1 <= moveAI (-1) 0 <= 0.
Proof.
  assert (H : within courtMin courtMax 0) by (split; qdec).
  destruct (ai_paddle_step 1 0 H) as (H1 & _ & H3 & _).
  destruct (ai_paddle_step 0.05 0 H) as (_ & H2 & _).
  destruct (ai_paddle_step (-1) 0 H) as (_ & _ & _ & H4).
  repeat split; first [ exact H1 | apply H2; qdec | apply H3; qdec
                      | apply H4; qdec ].
Defined.

Lemma waiting_ball_is_docked_witness :
  ball_x (play [] initial) = -8.
Proof.
  apply (waiting_ball_is_docked []). reflexivity.
Defined.

Lemma ball_cannot_skip_a_paddle_band_witness :
  -9.2 <= ball_x (integrate (play [serveInput] initial))
  /\ ball_x (integrate (play [serveInput] initial)) <= 9.2.
Proof.
  destruct (ball_cannot_skip_a_paddle_band [serveInput]) as [H1 H2];
    [ reflexivity | ].
  split; [ apply H1 | apply H2 ]; qdec.
Defined.

Lemma paddle_update_leaves_rally_alone_witness :
  ballSpeed_x (updatePaddles (holding " ") 0.5 flyingToAI)
  = ballSpeed_x flyingToAI.
Proof.
  apply (paddle_update_leaves_rally_alone (holding " ") 0.5 flyingToAI).
  reflexivity.
Defined.

Lemma hit_spin_follows_offset_witness :
  Qabs (ballSpeed_z (playerCollision inBandAtPlayer)) < 0.3.
Proof.
  apply (hit_spin_follows_offset inBandAtPlayer). reflexivity.
Defined.

End SingleMore.

(** ** Single-player: the music sequencer *)

Module MusicFacts.
Import Music.

Lemma theme_entries (i : nat) (note : string) (d : Q) :
  nth_error tetrisTheme i = Some (note, d) ->
  lookup noteFrequencies note <> None /\ 0 < d.
Proof.
  intros H.
  assert (Hall : Forall (fun nd => lookup noteFrequencies (fst nd) <> None
                                   /\ 0 < snd nd) tetrisTheme).
  { unfold tetrisTheme. repeat constructor; cbn; discriminate. }
  rewrite Forall_forall in Hall.
  apply (Hall (note, d)). eapply nth_error_In, H.
Qed.

Lemma toggleMusic_inTheme (now : Q) (m : State) :
  inTheme m -> inTheme (toggleMusic now m).
Proof.
  unfold inTheme, toggleMusic. destruct (isMusicPlaying m); cbn; [ auto | lia ].
Qed.

Lemma musicKey_inTheme (k : bool) (now : Q) (m : State) :
  inTheme m -> inTheme (musicKey k now m).
Proof.
  intros H. unfold musicKey.
  destruct (k && negb (m_last m)); [ apply (toggleMusic_inTheme now) in H | ];
    exact H.
Qed.

Lemma scheduleNote_inTheme (now : Q) (m : State) :
  inTheme m ->
  inTheme (fst (scheduleNote now m))
  /\ (forall p, snd (scheduleNote now m) = Some p ->
        wellFormed p /\ startTime p = nextNoteTime m
        /\ nextNoteTime (fst (scheduleNote now m)) = startTime p + duration p).
Proof.
  intros H. unfold scheduleNote.
  destruct (isMusicPlaying m && Qleb (nextNoteTime m) now);
    [ | split; [ exact H | discriminate ] ].
  destruct (nth_error tetrisTheme (currentNoteIndex m)) as [[note d] |] eqn:E;
    [ | split; [ exact H | discriminate ] ].
  cbn [fst snd]. split.
  - unfold inTheme. cbn [currentNoteIndex].
    apply Nat.mod_upper_bound. discriminate.
  - intros p Hp. injection Hp as <-. cbn.
    split; [ | auto ]. apply (theme_entries _ _ _ E).
Qed.

Lemma frames_inTheme (inputs : list (bool * Q)) (m : State) :
  inTheme m ->
  inTheme (fst (frames inputs m))
  /\ Forall wellFormed (snd (frames inputs m)).
Proof.
  revert m. induction inputs as [| [k now] rest IH]; intros m H; cbn [frames].
  - split; [ exact H | constructor ].
  - unfold frame.
    pose proof (musicKey_inTheme k now m H) as H1.
    destruct (scheduleNote_inTheme now _ H1) as [H2 Hp].
    destruct (scheduleNote now (musicKey k now m)) as [m1 p]. cbn [fst snd] in *.
    destruct (IH m1 H2) as [H3 Hps].
    destruct (frames rest m1) as [m2 ps]. cbn [fst snd] in *.
    split; [ exact H3 | ].
    destruct p as [p |]; [ | exact Hps ].
    constructor; [ apply (Hp p eq_refl) | exact Hps ].
Qed.

(** X9.  Through any sequence of frames (m key up or down, any clock) the
    note index stays below the length of the theme, and every note that
    is played has a frequency found in [noteFrequencies] and a positive
    duration. *)
Theorem music_always_finds_its_note (now : Q) (inputs : list (bool * Q)) :
  let result := frames inputs (initializeAudio now) in
  (currentNoteIndex (fst result) < List.length tetrisTheme)%nat
  /\ Forall (fun p => frequency p <> None /\ 0 < duration p) (snd result).
Proof.
  apply frames_inTheme. unfold inTheme. cbn. lia.
Qed.

(** X10.  The music toggles on the frame the m key goes down and not again
    while the key is held or when it is released. *)
Theorem music_key_toggles_once_per_press (t1 t2 : Q) (m : State) :
  let pressed := musicKey true t1 m in
  (m_last m = false -> isMusicPlaying pressed = negb (isMusicPlaying m))
  /\ musicKey true t2 pressed = pressed
  /\ isMusicPlaying (musicKey false t2 pressed) = isMusicPlaying pressed.
Proof.
  cbv zeta. unfold musicKey, toggleMusic.
  destruct m as [playing i next g last]. cbn.
  destruct last, playing; cbn; repeat split; intros; try reflexivity;
    discriminate.
Qed.

Lemma scheduleNote_due (now : Q) (m : State) (note : string) (d : Q) :
  isMusicPlaying m = true -> nextNoteTime m <= now ->
  nth_error tetrisTheme (currentNoteIndex m) = Some (note, d) ->
  fst (scheduleNote now m) =
  mkState true (Nat.modulo (S (currentNoteIndex m)) (List.length tetrisTheme))
          (nextNoteTime m + d) (gain m) (m_last m).
Proof.
  intros Hp Hdue Hn. unfold scheduleNote. rewrite Hp, Hn.
  destruct (Qleb_spec (nextNoteTime m) now); [ | contradiction ].
  reflexivity.
Qed.

Lemma schedule_step (k : nat) (now : Q) (m : State) :
  schedule (S k) now m = schedule k now (fst (scheduleNote now m)).
Proof. reflexivity. Qed.

(** X11.  With the music on at the first note, once the clock has passed
    the whole theme, nineteen calls of [scheduleNote] play the theme once:
    the index is back at the first note and the next note is due 6.4
    seconds after the start. *)
Theorem theme_loops_after_its_length (now : Q) (m : State) :
  isMusicPlaying m = true -> currentNoteIndex m = 0%nat ->
  nextNoteTime m + themeLength <= now ->
  let m' := schedule (List.length tetrisTheme) now m in
  currentNoteIndex m' = 0%nat
  /\ nextNoteTime m' == nextNoteTime m + 6.4
  /\ isMusicPlaying m' = true.
Proof.
  destruct m as [playing i next g last]. cbn [isMusicPlaying currentNoteIndex
    nextNoteTime]. intros -> -> Hnow.
  assert (Hlen : themeLength == 6.4) by (vm_compute; reflexivity).
  rewrite Hlen in Hnow. cbv zeta.
  change (List.length tetrisTheme) with 19%nat.
  do 19 (rewrite schedule_step;
         erewrite scheduleNote_due;
         [ | reflexivity | cbn [nextNoteTime]; lra | reflexivity ];
         cbn [currentNoteIndex nextNoteTime gain m_last Nat.modulo
              Nat.divmod fst snd Nat.sub List.length tetrisTheme]).
  cbn [schedule currentNoteIndex nextNoteTime isMusicPlaying].
  repeat split; try reflexivity. lra.
Qed.

(** *** Examples *)

Lemma music_key_toggles_once_per_press_witness :
  isMusicPlaying (musicKey true 1 themeStart) = false
  /\ musicKey true 2 (musicKey true 1 themeStart) = musicKey true 1 themeStart.
Proof.
  destruct (music_key_toggles_once_per_press 1 2 themeStart) as (H1 & H2 & _).
  split; [ apply H1; reflexivity | exact H2 ].
Defined.

Lemma theme_loops_after_its_length_witness :
  currentNoteIndex (schedule (List.length tetrisTheme) 7 themeStart) = 0%nat.
Proof.
  apply (theme_loops_after_its_length 7 themeStart);
    [ reflexivity | reflexivity | qdec ].
Defined.

End MusicFacts.

(** ** Networked: frames, keys and the session *)

Module NetMore.
Import Net NetFacts.

Lemma simulateBall_leftPaddle (w h r : Q) (s : State) :
  leftPaddle (Net.simulateBall w h r s) = leftPaddle s.
Proof. apply (simulateBall_session w h r s). Qed.

Lemma simulateBall_rightPaddle (w h r : Q) (s : State) :
  rightPaddle (Net.simulateBall w h r s) = rightPaddle s.
Proof. apply (simulateBall_session w h r s). Qed.

#[local] Hint Rewrite simulateBall_useWebRTC simulateBall_peerConnected
  simulateBall_peer simulateBall_gameActive simulateBall_isHost
  simulateBall_leftPaddle simulateBall_rightPaddle : session.

Section Canvas.
Variables canvas_width canvas_height : Q.
Local Abbreviation gameLoop :=
  (Net.gameLoop canvas_width canvas_height).
Local Abbreviation simulateBall :=
  (Net.simulateBall canvas_width canvas_height).

(** X12.  On a canvas at least as high as a paddle, after a frame of a
    running game both paddles are within [0, canvas height - 100],
    whatever their positions and velocities were before. *)
Theorem paddles_in_bounds_after_frame (r : Q) (s : State) :
  paddleHeight <= canvas_height -> gameActive s = true ->
  let s' := fst (gameLoop r s) in
  within 0 (canvas_height - paddleHeight) (p_y (leftPaddle s'))
  /\ within 0 (canvas_height - paddleHeight) (p_y (rightPaddle s')).
Proof.
  intros Hh Hact. 
  pose proof (movePaddles_within canvas_height s Hh) as Hm. cbv zeta in Hm.
  assert (E : leftPaddle (fst (Net.gameLoop canvas_width canvas_height r s))
              = leftPaddle (fst (movePaddles canvas_height s))
              /\ rightPaddle (fst (Net.gameLoop canvas_width canvas_height r s))
                 = rightPaddle (fst (movePaddles canvas_height s))).
  { open_handlers. run_host; impossible; auto. }
  cbv zeta. destruct E as [-> ->]. exact Hm.
Qed.

Lemma simulateBall_scores (r : Q) (s : State) :
  let s' := simulateBall r s in
  (leftScore s' = leftScore s /\ rightScore s' = rightScore s)
  \/ (rightScore s' = S (rightScore s) /\ leftScore s' = leftScore s
      /\ b_x (ball s') = canvas_width / 2 /\ b_y (ball s') = canvas_height / 2)
  \/ (leftScore s' = S (leftScore s) /\ rightScore s' = rightScore s
      /\ b_x (ball s') = canvas_width / 2 /\ b_y (ball s') = canvas_height / 2).
Proof.
  cbv zeta. rewrite simulateBall_scoring.
  unfold scoring, resetBall.
  destruct (outLeft _); fields; [ right; left; auto | ].
  destruct (outRight _ _); fields; [ right; right; auto | left; auto ].
Qed.

(** X15.  One simulation step changes the scores by at most one point, for
    one side only, and in a step with a point the ball is put back at the
    centre of the canvas. *)
Theorem one_point_per_step (r : Q) (s : State) :
  let s' := simulateBall r s in
  (leftScore s' = leftScore s /\ rightScore s' = rightScore s)
  \/ (rightScore s' = S (rightScore s) /\ leftScore s' = leftScore s
      /\ b_x (ball s') = canvas_width / 2 /\ b_y (ball s') = canvas_height / 2)
  \/ (leftScore s' = S (leftScore s) /\ rightScore s' = rightScore s
      /\ b_x (ball s') = canvas_width / 2 /\ b_y (ball s') = canvas_height / 2).
Proof. exact (simulateBall_scores r s). Qed.

Lemma frame_scores_grow (r : Q) (s : State) :
  (leftScore s <= leftScore (fst (gameLoop r s)))%nat
  /\ (rightScore s <= rightScore (fst (gameLoop r s)))%nat.
Proof.
  open_handlers. run_host; impossible; try (split; lia).
  all: match goal with
       | |- context [Net.simulateBall ?w ?h ?r ?s0] =>
           destruct (simulateBall_scores r s0) as [[? ?] | [(? & ? & _) | (? & ? & _)]]
       end; cbv zeta in *; fields; split; lia.
Qed.

(** X16.  When a score has reached the winning score, the next frame of the
    running game ends it: the game-over screen is shown, and the winner
    is player 1 exactly when the left score is above the right one,
    player 2 otherwise. *)
Theorem winning_score_ends_game (r : Q) (s : State) :
  gameActive s = true ->
  (winningScore <= leftScore s \/ winningScore <= rightScore s)%nat ->
  let s' := fst (gameLoop r s) in
  gameActive s' = false /\ screen s' = GameOverScreen
  /\ winnerDisplay s' =
     (if (rightScore s' <? leftScore s')%nat then "PLAYER 1 WINS!"
      else "PLAYER 2 WINS!").
Proof.
  intros Hact Hwin. pose proof (frame_scores_grow r s) as Hgrow.
  cbv zeta. revert Hgrow. open_handlers.
  run_host; impossible; intros [Hl Hr].
  all: try (exfalso;
            repeat match goal with
                   | H : (_ <=? _)%nat = false |- _ =>
                       apply Nat.leb_gt in H
                   | H : _ || _ = false |- _ =>
                       apply orb_false_iff in H; destruct H
                   end; lia).
  all: unfold winnerText; fields; autorewrite with session; fields.
  all: repeat split; try reflexivity.
  all: repeat match goal with
              | H : ?c = _ |- context [if ?c then _ else _] => rewrite H
              end; reflexivity.
Qed.

(** X14.  A frame never mixes the channels: while the direct channel is in
    use every message of the frame goes over it, otherwise every message
    goes through the server; on the relayed channel the first message is
    the own paddle's position after the move. *)
Theorem frame_uses_one_channel (r : Q) (s : State) :
  let outs := snd (gameLoop r s) in
  (directInUse s = true -> forallb isDirect outs = true)
  /\ (directInUse s = false -> forallb isRelay outs = true)
  /\ (gameActive s = true -> directInUse s = false ->
      exists rest,
        outs = Relay (paddleMoveE (currentRoomCode s)
                        (if isHost s
                         then p_y (leftPaddle (fst (gameLoop r s)))
                         else p_y (rightPaddle (fst (gameLoop r s)))))
               :: rest).
Proof.
  cbv zeta. open_handlers.
  repeat split; intros; run_host; impossible; try reflexivity;
    eexists; reflexivity.
Qed.

Local Abbreviation handle := (Net.handle canvas_width canvas_height).
Local Abbreviation run := (Net.run canvas_width canvas_height).

(** X17.  For a paddle with positive speed: pressing and then releasing an
    up or down key leaves the paddle still; releasing a key of the other
    direction does not stop it; the keys never change position or speed. *)
Theorem key_press_and_release (k k' : string) (p : Paddle) :
  0 < p_speed p ->
  (isUpKey k || isDownKey k = true ->
   p_dy (releaseKey k (pressKey k p)) = 0)
  /\ (isUpKey k = true -> isUpKey k' = false ->
      releaseKey k' (pressKey k p) = pressKey k p)
  /\ (isUpKey k = false -> isDownKey k = true -> isDownKey k' = false ->
      releaseKey k' (pressKey k p) = pressKey k p)
  /\ p_y (releaseKey k' (pressKey k p)) = p_y p
  /\ p_speed (releaseKey k' (pressKey k p)) = p_speed p.
Proof.
  intros Hs. unfold releaseKey, pressKey.
  repeat split; intros;
    destruct (isUpKey k) eqn:?, (isDownKey k) eqn:?;
    try destruct (isUpKey k') eqn:?; try destruct (isDownKey k') eqn:?;
    try discriminate; fields; cbn [andb];
    repeat (split_tests; fields; cbn [andb]); try reflexivity; try lra.
Qed.

Lemma pressKey_sound (k : string) (p : Paddle) :
  stepSpeed p -> stepSpeed (pressKey k p).
Proof.
  unfold stepSpeed, pressKey. intros [Hs Hd].
  destruct (isUpKey k); [ | destruct (isDownKey k) ]; fields; rewrite ?Hs;
    auto.
Qed.

Lemma releaseKey_sound (k : string) (p : Paddle) :
  stepSpeed p -> stepSpeed (releaseKey k p).
Proof.
  unfold stepSpeed, releaseKey. intros [Hs Hd].
  destruct (isUpKey k && _); [ | destruct (isDownKey k && _) ]; fields; auto.
Qed.

Lemma set_y_sound (y : Q) (p : Paddle) : stepSpeed p -> stepSpeed (set_y y p).
Proof. unfold stepSpeed. fields. auto. Qed.

Lemma fresh_paddle_sound (x y : Q) : stepSpeed (mkPaddle x y 0 8).
Proof. unfold stepSpeed. fields. auto. Qed.

Lemma handle_sound (e : Event) (s : State) :
  paddlesSound s -> paddlesSound (fst (handle e s)).
Proof.
  unfold paddlesSound. intros [Hl Hr].
  destruct e; try match goal with m : RtcMsg |- _ => destruct m end;
    try match goal with p : Side |- _ => destruct p end;
    try match goal with throws : bool |- _ => destruct throws end;
    open_handlers; run_host; impossible; unfold stepPaddle; fields;
    split;
    first [ assumption
          | apply fresh_paddle_sound
          | apply set_y_sound; assumption
          | apply pressKey_sound; assumption
          | apply releaseKey_sound; assumption ].
Qed.

(** X18.  Through any sequence of handler runs, paddles that have speed 8
    and velocity -8, 0 or 8 keep that form. *)
Theorem paddle_speed_is_one_of_three (evs : list Event) (s : State) :
  paddlesSound s -> paddlesSound (fst (run evs s)).
Proof.
  revert s. induction evs as [| e evs IH]; intros s H.
  - exact H.
  - rewrite run_cons. cbn [fst]. apply IH. now apply handle_sound.
Qed.

(** X19.  One game-start message runs [startGame] twice, the handlers
    being installed twice.  Afterwards the game is running from the same
    court every time: scores zero, both paddles at height 250 and still,
    the ball at (400, 300) with speed 5 along and across, its directions
    those drawn by the second run; in these two runs the host sends
    nothing, the guest sends two requests for the ball state, both on the
    channel in use. *)
Theorem game_start_resets_the_court (r1 r2 r3 r4 : Q) (s : State) :
  let s' := fst (gameStartArrives r1 r2 r3 r4 s) in
  let outs := snd (gameStartArrives r1 r2 r3 r4 s) in
  gameActive s' = true /\ screen s' = GameScreen
  /\ leftScore s' = 0%nat /\ rightScore s' = 0%nat
  /\ leftPaddle s' = mkPaddle 50 250 0 8
  /\ rightPaddle s' = mkPaddle 735 250 0 8
  /\ ball s' = mkBall 400 300 (5 * coin r3) (5 * coin r4) 5
  /\ Qabs (b_dx (ball s')) == 5 /\ Qabs (b_dy (ball s')) == 5
  /\ (isHost s = true -> outs = [])
  /\ (isHost s = false -> directInUse s = false ->
      outs = [Relay (requestBallUpdateE (currentRoomCode s));
              Relay (requestBallUpdateE (currentRoomCode s))])
  /\ (isHost s = false -> directInUse s = true -> peer s = true ->
      outs = [Direct requestBallUpdate; Direct requestBallUpdate]).
Proof.
  cbv zeta. unfold gameStartArrives. open_handlers.
  repeat split; intros; run_act; impossible; try reflexivity.
  all: unfold coin; split_tests; reflexivity.
Qed.

Lemma back_quiet (s : State) :
  peer s = false -> snd (handle ClickBack s) = [].
Proof.
  intros H. open_handlers. run_act; impossible; reflexivity.
Qed.

Lemma back_releases (s : State) : peer (fst (handle ClickBack s)) = false.
Proof.
  open_handlers. run_act; impossible; first [ reflexivity | assumption ].
Qed.

(** X20.  Going back to the menu leaves no session behind: menu screen, no
    room, not host, game stopped, scores zero, no peer; an existing peer
    is destroyed exactly once and marked disconnected, and going back
    again sends nothing. *)
Theorem back_to_menu_releases_everything (s : State) :
  let s' := fst (handle ClickBack s) in
  screen s' = MenuScreen /\ gameActive s' = false /\ isHost s' = false
  /\ currentRoomCode s' = None
  /\ leftScore s' = 0%nat /\ rightScore s' = 0%nat
  /\ peer s' = false
  /\ (peer s = true ->
      peerConnected s' = false /\ snd (handle ClickBack s) = [DestroyPeer])
  /\ (peer s = false -> snd (handle ClickBack s) = [])
  /\ snd (handle ClickBack s') = [].
Proof.
  cbv zeta.
  repeat match goal with |- _ /\ _ => split end;
    try (apply back_quiet, back_releases);
    try apply back_releases; try apply back_quiet;
    open_handlers; intros; run_act; impossible;
    try first [ reflexivity | assumption | congruence ].
  split; reflexivity.
Qed.

(** X21.  Only the game-created event, the back button and the player-left
    event can change who is host. *)
Theorem role_changes_only_in_the_lobby (e : Event) (s : State) :
  changesRole e = false -> isHost (fst (handle e s)) = isHost s.
Proof.
  intros H.
  destruct e; try discriminate;
    try match goal with m : RtcMsg |- _ => destruct m end;
    try match goal with p : Side |- _ => destruct p end;
    try match goal with throws : bool |- _ => destruct throws end;
    open_handlers; run_host; impossible;
    first [ reflexivity | congruence ].
Qed.

(** X22.  After a game-over notice, from the peer or from the server, a
    frame does nothing; the notice leaves ball, scores and screen as they
    were. *)
Theorem game_over_notice_stops_the_loop (r : Q) (s : State) :
  let viaPeer := fst (handle (PeerData gameOver) s) in
  let viaServer := fst (handle OnGameEnded s) in
  handle (Frame r) viaPeer = (viaPeer, [])
  /\ handle (Frame r) viaServer = (viaServer, [])
  /\ ball viaPeer = ball s /\ leftScore viaPeer = leftScore s
  /\ rightScore viaPeer = rightScore s /\ screen viaPeer = screen s.
Proof.
  cbv zeta. unfold Net.handle, handleWebRTCMessage, Net.gameLoop.
  repeat split; run_act; impossible; reflexivity.
Qed.

End Canvas.

(** X23.  A paddle hit sets the velocity across to a tenth of the offset of
    the ball from the paddle's top minus 5, which lies between -6.5 and
    5. *)
Theorem paddle_spin_range (p : Paddle) (b : Ball) :
  (hitsLeft p b = true ->
   b_dy (leftCollision p b) == (b_y b - p_y p) * 0.1 - 5
   /\ -6.5 <= b_dy (leftCollision p b) <= 5)
  /\ (hitsRight p b = true ->
      b_dy (rightCollision p b) == (b_y b - p_y p) * 0.1 - 5
      /\ -6.5 <= b_dy (rightCollision p b) <= 5).
Proof.
  split; intros Hhit.
  - destruct (hitsLeft_overlap _ _ Hhit) as (_ & Hlo & Hhi & _).
    unfold leftCollision, bounceOff. rewrite Hhit. cbv zeta. fields.
    unfold_consts.
    assert (E : 10 * ((b_y b - p_y p) / 100 - 0.5)
                == (b_y b - p_y p) * 0.1 - 5) by field.
    rewrite E. split; [ reflexivity | lra ].
  - destruct (hitsRight_overlap _ _ Hhit) as (_ & Hlo & Hhi & _).
    unfold rightCollision, bounceOff. rewrite Hhit. cbv zeta. fields.
    unfold_consts.
    assert (E : 10 * ((b_y b - p_y p) / 100 - 0.5)
                == (b_y b - p_y p) * 0.1 - 5) by field.
    rewrite E. split; [ reflexivity | lra ].
Qed.

(** *** Examples *)

Lemma paddles_in_bounds_after_frame_witness :
  within 0 (canvasH - paddleHeight)
    (p_y (leftPaddle (fst (gameLoop canvasW canvasH 0.7 hostMidGame)))).
Proof.
  apply (paddles_in_bounds_after_frame canvasW canvasH 0.7 hostMidGame);
    [ qdec | reflexivity ].
Defined.

Lemma frame_uses_one_channel_witness :
  forallb isDirect (snd (gameLoop canvasW canvasH 0.7 hostMidGame)) = true
  /\ forallb isRelay (snd (gameLoop canvasW canvasH 0.7 guestRelayed)) = true
  /\ exists rest,
       snd (gameLoop canvasW canvasH 0.7 guestRelayed) =
       Relay (paddleMoveE (Some "AB12") 250) :: rest.
Proof.
  destruct (frame_uses_one_channel canvasW canvasH 0.7 hostMidGame)
    as (H1 & _ & _).
  destruct (frame_uses_one_channel canvasW canvasH 0.7 guestRelayed)
    as (_ & H2 & H3).
  split; [ apply H1; reflexivity | ].
  split; [ apply H2; reflexivity | ].
  apply H3; reflexivity.
Defined.

Lemma winning_score_ends_game_witness :
  winnerDisplay (fst (gameLoop canvasW canvasH 0.7 hostAtTen))
  = "PLAYER 1 WINS!".
Proof.
  destruct (winning_score_ends_game canvasW canvasH 0.7 hostAtTen)
    as (_ & _ & H); [ reflexivity | left; vm_compute; lia | ].
  exact H.
Defined.

Lemma key_press_and_release_witness :
  p_dy (releaseKey "w" (pressKey "w" freshPaddle)) = 0
  /\ releaseKey "s" (pressKey "w" freshPaddle) = pressKey "w" freshPaddle
  /\ releaseKey "ArrowUp" (pressKey "s" freshPaddle) = pressKey "s" freshPaddle.
Proof.
  assert (H : 0 < p_speed freshPaddle) by qdec.
  destruct (key_press_and_release "w" "s" freshPaddle H) as (H1 & H2 & _).
  destruct (key_press_and_release "s" "ArrowUp" freshPaddle H)
    as (_ & _ & H3 & _).
  split; [ apply H1; reflexivity | ].
  split; [ apply H2; reflexivity | apply H3; reflexivity ].
Defined.

Lemma paddle_speed_is_one_of_three_witness :
  paddlesSound
    (fst (run canvasW canvasH [KeyDown "w"; Frame 0.7; KeyUp "w"] hostMidGame)).
Proof.
  apply (paddle_speed_is_one_of_three canvasW canvasH).
  split; split; first [ reflexivity | right; left; reflexivity ].
Defined.

Lemma game_start_resets_the_court_witness :
  snd (gameStartArrives 0.7 0.2 0.4 0.9 hostMidGame) = []
  /\ snd (gameStartArrives 0.7 0.2 0.4 0.9 guestRelayed)
     = [Relay (requestBallUpdateE (Some "AB12"));
        Relay (requestBallUpdateE (Some "AB12"))]
  /\ snd (gameStartArrives 0.7 0.2 0.4 0.9 guestMidGame)
     = [Direct requestBallUpdate; Direct requestBallUpdate].
Proof.
  destruct (game_start_resets_the_court 0.7 0.2 0.4 0.9 hostMidGame)
    as (_ & _ & _ & _ & _ & _ & _ & _ & _ & H1 & _).
  destruct (game_start_resets_the_court 0.7 0.2 0.4 0.9 guestRelayed)
    as (_ & _ & _ & _ & _ & _ & _ & _ & _ & _ & H2 & _).
  destruct (game_start_resets_the_court 0.7 0.2 0.4 0.9 guestMidGame)
    as (_ & _ & _ & _ & _ & _ & _ & _ & _ & _ & _ & H3).
  split; [ apply H1; reflexivity | ].
  split; [ apply H2; reflexivity | apply H3; reflexivity ].
Defined.

Lemma back_to_menu_releases_everything_witness :
  snd (handle canvasW canvasH ClickBack hostMidGame) = [DestroyPeer]
  /\ snd (handle canvasW canvasH ClickBack inMenu) = [].
Proof.
  destruct (back_to_menu_releases_everything canvasW canvasH hostMidGame)
    as (_ & _ & _ & _ & _ & _ & _ & H1 & _).
  destruct (back_to_menu_releases_everything canvasW canvasH inMenu)
    as (_ & _ & _ & _ & _ & _ & _ & _ & H2 & _).
  split; [ apply H1; reflexivity | apply H2; reflexivity ].
Defined.

Lemma role_changes_only_in_the_lobby_witness :
  isHost (fst (handle canvasW canvasH (Frame 0.7) hostMidGame)) = true.
Proof.
  rewrite (role_changes_only_in_the_lobby canvasW canvasH (Frame 0.7)
             hostMidGame); reflexivity.
Defined.

Lemma paddle_spin_range_witness :
  -6.5 <= b_dy (leftCollision freshPaddle ballAtLeftPaddle) <= 5
  /\ -6.5 <= b_dy (rightCollision (mkPaddle 735 250 0 8) ballAtRightPaddle)
     <= 5.
Proof.
  destruct (paddle_spin_range freshPaddle ballAtLeftPaddle) as [H1 _].
  destruct (paddle_spin_range (mkPaddle 735 250 0 8) ballAtRightPaddle)
    as [_ H2].
  split; [ apply H1; reflexivity | apply H2; reflexivity ].
Defined.

End NetMore.

(** ** Networked: the camera *)

Module ViewFacts.
Import View.

Section Canvas.
Variables canvas_width canvas_height : Q.
Local Abbreviation updateCamera :=
  (View.updateCamera canvas_width canvas_height).
Local Abbreviation follow := (View.follow canvas_width canvas_height).
Local Abbreviation targetX := (View.targetX canvas_width).

Lemma updateCamera_gap (s : Net.State) (c : Camera) :
  followPlayer c = true ->
  followPlayer (updateCamera s c) = true
  /\ targetX s - cam_x (updateCamera s c) == 0.9 * (targetX s - cam_x c).
Proof.
  intros H. unfold View.updateCamera. rewrite H. cbn. split; [ reflexivity | ].
  set (t := targetX s). lra.
Qed.

(** X24.  While the camera follows the player and the game state stands
    still, each frame closes a tenth of the gap along x between camera
    and paddle: after n frames the gap is 0.9 ^ n times the first one, and
    never larger. *)
Theorem camera_closes_in_on_paddle (n : nat) (s : Net.State) (c : Camera) :
  followPlayer c = true ->
  targetX s - cam_x (follow n s c)
  == 0.9 ^ Z.of_nat n * (targetX s - cam_x c)
  /\ Qabs (targetX s - cam_x (follow n s c)) <= Qabs (targetX s - cam_x c).
Proof.
  revert c. induction n as [| n IH]; intros c H.
  - cbn [View.follow]. split; [ cbn; lra | apply Qle_refl ].
  - cbn [View.follow].
    destruct (updateCamera_gap s c H) as [Hf Hg].
    destruct (IH _ Hf) as [IH1 IH2]. split.
    + rewrite IH1, Hg. rewrite Nat2Z.inj_succ. unfold Z.succ.
      rewrite Qpower_plus by discriminate. cbn. lra.
    + eapply Qle_trans; [ exact IH2 | ]. rewrite Hg.
      set (t := targetX s - cam_x c). split_abs; lra.
Qed.

End Canvas.
(** *** Examples *)

Lemma camera_closes_in_on_paddle_witness :
  Qabs (targetX canvasW hostMidGame
        - cam_x (follow canvasW canvasH 3 hostMidGame (defaultCamera true)))
  <= Qabs (targetX canvasW hostMidGame - cam_x (defaultCamera true)).
Proof.
  apply (camera_closes_in_on_paddle canvasW canvasH 3 hostMidGame
           (defaultCamera true)).
  reflexivity.
Defined.

End ViewFacts.

(** ** Networked: host and guest together *)

Module SyncFacts.
Import Net NetFacts.

#[local] Hint Rewrite simulateBall_useWebRTC simulateBall_peerConnected
  simulateBall_peer simulateBall_gameActive simulateBall_isHost
  NetMore.simulateBall_leftPaddle NetMore.simulateBall_rightPaddle : session.

Section Canvas.
Variables canvas_width canvas_height : Q.

(** X25.  What the host sends in a frame over the data channel brings the
    guest up to date: the first two messages are the host's paddle and
    the ball state, and a guest that handles them in that order, as they
    were sent, holds the host's ball, both scores and the host's paddle
    position of the end of that frame. *)
Theorem guest_sees_hosts_frame (r : Q) (host guest : State) :
  gameActive host = true -> isHost host = true ->
  directInUse host = true -> peer host = true ->
  isHost guest = false ->
  let host' := fst (Net.gameLoop canvas_width canvas_height r host) in
  let sent := snd (Net.gameLoop canvas_width canvas_height r host) in
  exists m1 m2 rest,
    sent = Direct m1 :: Direct m2 :: rest
    /\ let guest' :=
         fst (Net.handle canvas_width canvas_height (PeerData m2)
                (fst (Net.handle canvas_width canvas_height (PeerData m1)
                        guest))) in
       ball guest' = ball host'
       /\ leftScore guest' = leftScore host'
       /\ rightScore guest' = rightScore host'
       /\ p_y (leftPaddle guest') = p_y (leftPaddle host').
Proof.
  intros Hact Hhost Hdir Hpeer Hguest. unfold directInUse in Hdir.
  cbv zeta. open_handlers. run_host; impossible.
  all: do 3 eexists; split; [ reflexivity | ].
  all: cbv zeta; open_handlers; run_act; impossible.
  all: unfold updateScore; fields; autorewrite with session; fields.
  all: repeat split; reflexivity.
Qed.

End Canvas.

Lemma guest_sees_hosts_frame_witness :
  exists m1 m2 rest,
    snd (gameLoop canvasW canvasH 0.7 hostMidGame)
    = Direct m1 :: Direct m2 :: rest
    /\ ball (fst (handle canvasW canvasH (PeerData m2)
                    (fst (handle canvasW canvasH (PeerData m1) guestMidGame))))
       = ball (fst (gameLoop canvasW canvasH 0.7 hostMidGame)).
Proof.
  destruct (guest_sees_hosts_frame canvasW canvasH 0.7 hostMidGame guestMidGame)
    as (m1 & m2 & rest & E & H & _); try reflexivity.
  exists m1, m2, rest. split; [ exact E | exact H ].
Defined.

End SyncFacts.

(** ** Networked: the camera key *)

Module ViewMore.
Import View.

(** X26.  The c key is ignored unless a game runs; in a running game it
    flips [followPlayer]; switching the follow mode off puts the camera
    back to its initial place, switching it on leaves the camera where it
    is; and a camera that does not follow is not moved by
    [updateCamera]. *)
Theorem camera_key_toggles_follow (k : string) (s : Net.State) (c : Camera) :
  (Net.gameActive s = false -> cameraKey k s c = c)
  /\ (Net.gameActive s = true -> k = "c" \/ k = "C" ->
      followPlayer (cameraKey k s c) = negb (followPlayer c)
      /\ (followPlayer c = true -> cameraKey k s c = defaultCamera false)
      /\ (followPlayer c = false ->
          cam_x (cameraKey k s c) = cam_x c /\ cam_y (cameraKey k s c) = cam_y c))
  /\ (forall w h, followPlayer c = false -> updateCamera w h s c = c).
Proof.
  unfold cameraKey, updateCamera. repeat split; intros.
  - rewrite H. reflexivity.
  - rewrite H. destruct H0 as [-> | ->]; cbn;
      destruct (followPlayer c); reflexivity.
  - rewrite H. destruct H0 as [-> | ->]; cbn; rewrite H1; reflexivity.
  - rewrite H. destruct H0 as [-> | ->]; cbn; rewrite H1; reflexivity.
  - rewrite H. destruct H0 as [-> | ->]; cbn; rewrite H1; reflexivity.
  - rewrite H. reflexivity.
Qed.

Lemma camera_key_toggles_follow_witness :
  cameraKey "c" inMenu (defaultCamera true) = defaultCamera true
  /\ cameraKey "c" hostMidGame (defaultCamera true) = defaultCamera false
  /\ updateCamera canvasW canvasH hostMidGame (defaultCamera false)
     = defaultCamera false.
Proof.
  destruct (camera_key_toggles_follow "c" inMenu (defaultCamera true))
    as (H1 & _).
  destruct (camera_key_toggles_follow "c" hostMidGame (defaultCamera true))
    as (_ & H2 & _).
  destruct (camera_key_toggles_follow "c" hostMidGame (defaultCamera false))
    as (_ & _ & H3).
  split; [ apply H1; reflexivity | ].
  split; [ apply H2; [ reflexivity | left; reflexivity | reflexivity ] | ].
  apply H3. reflexivity.
Defined.

End ViewMore.
